(** * tuned_chat: the relay core of [main.py] and the aggregator of [crud.py]

    A shallow embedding of the connection registry, the presence tracker,
    the two-stage rewrite pipeline, the per-connection message loop and the
    conversation summaries, followed by the properties the specification
    states about them.

    Conventions of the embedding.
    - Python [str] is [string]; characters are 8-bit code points and the
      whitespace of [str.strip] is Python's table below 256
      (9..13, 28..32, 133 and 160).
    - [time.time()] floats are exact rationals [Q]; rounding is outside
      the model.
    - A coroutine is run to completion on its own: what other tasks do at
      an [await] is outside the model.
    - What the process cannot decide (whether a socket write goes through,
      what the completion service answers) is read from two oracles, over
      which every statement quantifies. *)

From Stdlib Require Import ZArith QArith Qround Lqa Ascii String.
From stdpp Require Import gmap strings list fin_maps sorting.

Local Open Scope string_scope.
Local Open Scope Z_scope.
Local Open Scope list_scope.

(** ** Python strings *)

Module PyStr.

(** [c.isspace()] for a code point below 256. *)
Definition is_space (c : ascii) : bool :=
  let n := nat_of_ascii c in
  ((9 <=? n) && (n <=? 13) || (28 <=? n) && (n <=? 32)
   || (n =? 133) || (n =? 160))%nat.

Fixpoint lstrip (s : string) : string :=
  match s with
  | String c r => if is_space c then lstrip r else s
  | EmptyString => EmptyString
  end.

Fixpoint rstrip (s : string) : string :=
  match s with
  | String c r =>
      match rstrip r with
      | EmptyString => if is_space c then EmptyString else String c EmptyString
      | r' => String c r'
      end
  | EmptyString => EmptyString
  end.

(** [s.strip()] *)
Definition strip (s : string) : string := rstrip (lstrip s).

Definition lower_char (c : ascii) : ascii :=
  let n := nat_of_ascii c in
  if ((65 <=? n) && (n <=? 90))%nat then ascii_of_nat (n + 32) else c.

(** [s.lower()] *)
Fixpoint lower (s : string) : string :=
  match s with
  | String c r => String (lower_char c) (lower r)
  | EmptyString => EmptyString
  end.

(** [s.startswith(p)] *)
Definition startswith (s p : string) : bool := String.prefix p s.

(** [s.split(":", 1)[1]]: what follows the first colon; [None] stands for
    the [IndexError] of a one-element split. *)
Fixpoint after_colon (s : string) : option string :=
  match s with
  | String c r => if Ascii.eqb c ":"%char then Some r else after_colon r
  | EmptyString => None
  end.

(** [bool(s)] *)
Definition truthy (s : string) : bool :=
  match s with EmptyString => false | _ => true end.

(** [o or ""] for [o : Optional[str]] *)
Definition or_empty (o : option string) : string :=
  match o with Some s => s | None => "" end.

End PyStr.

(** ** Exceptions, the world and the monad of handlers *)

Inductive exn :=
| WebSocketDisconnect | RuntimeError
| JSONDecodeError | AttributeError | KeyError | ValueError | TypeError
| IndexError | OverflowError
| APIConnectionError | RateLimitError | APIStatusError | APIError
| OtherException.

(** A connection handle ([WebSocket] object identity). *)
Definition conn := nat.

(** Outbound frames ([send_json] payloads). *)
Inductive payload :=
| Joined (ok : bool) (peer_id : Z)
| ErrorFrame (detail : string) (message : option string)
| ChatMessage (id sender_id recipient_id : Z)
              (text final_text original_text outgoing_text : string)
              (mine : bool).

(** What happened on the wire, oldest first. *)
Inductive wire_event :=
| Delivered (ws : conn) (p : payload)
| WriteFailed (ws : conn) (p : payload).

Definition event_conn (e : wire_event) : conn :=
  match e with Delivered ws _ | WriteFailed ws _ => ws end.

Definition event_payload (e : wire_event) : payload :=
  match e with Delivered _ p | WriteFailed _ p => p end.

(** [models.User] without its primary key, which is the key of the table. *)
Record User := mkUser {
  nickname : string;
  instruction : option string;
  outgoing_instruction : option string;
}.

(** [models.Message]; a [DateTime] is a count of microseconds. *)
Record Message := mkMessage {
  msg_id : Z;
  sender_id : Z;
  recipient_id : Z;
  original_text : option string;
  outgoing_text : option string;
  rephrased_text : option string;
  instruction_used : option string;
  outgoing_instruction_used : option string;
  timestamp : Z;
}.

(** The process state the relay touches: [manager.active], the two tables,
    the wire, and how many completions were requested so far. *)
Record World := mkWorld {
  active : gmap Z (gset conn);
  users : gmap Z User;
  messages : list Message;
  wire : list wire_event;
  api_calls : nat;
}.

Definition set_active (a : gmap Z (gset conn)) (w : World) : World :=
  mkWorld a (users w) (messages w) (wire w) (api_calls w).
Definition set_messages (ms : list Message) (w : World) : World :=
  mkWorld (active w) (users w) ms (wire w) (api_calls w).
Definition set_wire (l : list wire_event) (w : World) : World :=
  mkWorld (active w) (users w) (messages w) l (api_calls w).
Definition set_api_calls (n : nat) (w : World) : World :=
  mkWorld (active w) (users w) (messages w) (wire w) n.

Inductive outcome (A : Type) :=
| Return (a : A)
| Raise (e : exn).
Arguments Return {A} a.
Arguments Raise {A} e.

(** A Python call: it returns or raises, and keeps its side effects in
    both cases. *)
Definition M (A : Type) : Type := World → outcome A * World.

Definition ret {A} (a : A) : M A := λ w, (Return a, w).
Definition raise {A} (e : exn) : M A := λ w, (Raise e, w).
Definition bind {A B} (m : M A) (k : A → M B) : M B :=
  λ w, match m w with
       | (Return a, w') => k a w'
       | (Raise e, w') => (Raise e, w')
       end.
(** [try: m  except Exception: h] *)
Definition try_except {A} (m : M A) (h : exn → M A) : M A :=
  λ w, match m w with
       | (Return a, w') => (Return a, w')
       | (Raise e, w') => h e w'
       end.
(** A computation that touches no state. *)
Definition lift {A} (r : outcome A) : M A := λ w, (r, w).
Definition gets {A} (f : World → A) : M A := λ w, (Return (f w), w).
Definition modify (f : World → World) : M unit := λ w, (Return tt, f w).

Declare Scope py_scope.
Delimit Scope py_scope with py.
Notation "'let*' x := m 'in' k" := (bind m (λ x, k))
  (at level 10, x name, m at level 100, k at level 200) : py_scope.
Notation "m ;; k" := (bind m (λ _, k))
  (at level 100, k at level 200, right associativity) : py_scope.
Local Open Scope py_scope.

(** ** Connection registry ([ConnectionManager]) *)

(** [bool(bucket)] for [bucket = self.active.get(user_id)]: [None] and the
    empty set are false. *)
Definition bucket_truthy (bucket : option (gset conn)) : bool :=
  match bucket with
  | Some s => bool_decide (s ≠ ∅)
  | None => false
  end.

(** [websocket in bucket] *)
Definition bucket_has (bucket : option (gset conn)) (websocket : conn) : bool :=
  match bucket with
  | Some s => bool_decide (websocket ∈ s)
  | None => false
  end.

(** [self._bucket(user_id).add(websocket)], after [websocket.accept()]. *)
Definition connect (user_id : Z) (websocket : conn) : M unit :=
  modify (λ w,
    let bucket := default ∅ (active w !! user_id) in
    set_active (<[user_id := bucket ∪ {[websocket]}]> (active w)) w).

(** [bucket.remove(websocket)] on the set object stored under [user_id]:
    [bucket] aliases [self.active[user_id]], so the removal is seen through
    the registry. [set.remove] raises [KeyError] on a missing element. *)
Definition bucket_remove (user_id : Z) (websocket : conn) : M unit :=
  λ w, match active w !! user_id with
       | Some s =>
           if bool_decide (websocket ∈ s)
           then (Return tt, set_active (<[user_id := s ∖ {[websocket]}]> (active w)) w)
           else (Raise KeyError, w)
       | None => (Raise AttributeError, w)
       end.

(** [ConnectionManager.disconnect]. The second test reads the same set
    object after the removal. *)
Definition disconnect (user_id : Z) (websocket : conn) : M unit :=
  let* bucket := gets (λ w, active w !! user_id) in
  (if bucket_truthy bucket && bucket_has bucket websocket
   then bucket_remove user_id websocket
   else ret tt) ;;
  let* bucket := gets (λ w, active w !! user_id) in
  if bucket_truthy bucket && negb (bucket_truthy bucket)
  then modify (λ w, set_active (delete user_id (active w)) w)
  else ret tt.

(** ** The wire and the completion service *)

(** What [client.chat.completions.create] does when awaited: it answers,
    with [resp.choices[0].message.content] a string or [None], or it
    raises. *)
Inductive api_result :=
| Completion (content : option string)
| ApiFailure (e : exn).

(** [for x in l: body(x)] *)
Fixpoint for_each {A} (l : list A) (body : A → M unit) : M unit :=
  match l with
  | [] => ret tt
  | x :: rest => body x ;; for_each rest body
  end.

(** [try: m  finally: f] *)
Definition try_finally {A} (m : M A) (f : M unit) : M A :=
  λ w, match m w with
       | (Return a, w') =>
           match f w' with
           | (Return _, w'') => (Return a, w'')
           | (Raise e, w'') => (Raise e, w'')
           end
       | (Raise e, w') =>
           match f w' with
           | (Return _, w'') => (Raise e, w'')
           | (Raise e', w'') => (Raise e', w'')
           end
       end.

(** [try: m  except WebSocketDisconnect: pass] *)
Definition except_disconnect (m : M unit) : M unit :=
  λ w, match m w with
       | (Raise WebSocketDisconnect, w') => (Return tt, w')
       | r => r
       end.

Definition nl : string := String (ascii_of_nat 10) "".

Definition system_prompt : string :=
  "You are an uncompromising tone-transformer. You receive a STYLE description " ++
  "and a MESSAGE, and you MUST rewrite the MESSAGE so it matches the STYLE exactly. " ++
  "Do not add explanations, warnings, or softening language. Return ONLY the rewritten message text.".

Definition user_prompt (instr content : string) : string :=
  "STYLE:" ++ nl ++ instr ++ nl ++ nl ++
  "MESSAGE:" ++ nl ++ content ++ nl ++ nl ++
  "Rewritten message:".

(** ** Inbound frames *)

(** The value [json.loads] returns. An object is its list of fields, with
    distinct keys. Floats are the finite ones. *)
#[warnings="-register-all"]
Inductive json :=
| JNull
| JBool (b : bool)
| JInt (n : Z)
| JFloat (q : Q)
| JStr (s : string)
| JArr (items : list json)
| JObj (fields : list (string * json)).

(** The text [websocket.receive_text()] returns: a JSON document, or
    anything else. *)
Inductive frame :=
| Garbage
| Document (data : json).

(** [json.loads(raw)] *)
Definition json_loads (raw : frame) : outcome json :=
  match raw with
  | Document data => Return data
  | Garbage => Raise JSONDecodeError
  end.

Fixpoint assoc (key : string) (fields : list (string * json)) : option json :=
  match fields with
  | (k, v) :: rest => if String.eqb k key then Some v else assoc key rest
  | [] => None
  end.

(** [data.get(key)]; only a dict has [get]. *)
Definition json_get (data : json) (key : string) : outcome (option json) :=
  match data with
  | JObj fields => Return (assoc key fields)
  | _ => Raise AttributeError
  end.

(** [data[key]] on a dict. *)
Definition json_item (data : json) (key : string) : outcome json :=
  match data with
  | JObj fields =>
      match assoc key fields with
      | Some v => Return v
      | None => Raise KeyError
      end
  | _ => Raise TypeError
  end.

(** [v == s] for a string literal [s]; a missing value is [None]. *)
Definition is_str (v : option json) (s : string) : bool :=
  match v with
  | Some (JStr s') => String.eqb s' s
  | _ => false
  end.

(** [bool(v)] *)
Definition json_truthy (v : json) : bool :=
  match v with
  | JNull => false
  | JBool b => b
  | JInt n => negb (n =? 0)
  | JFloat q => negb (Qeq_bool q 0)
  | JStr s => PyStr.truthy s
  | JArr items => match items with [] => false | _ => true end
  | JObj fields => match fields with [] => false | _ => true end
  end.

(** [(v or "").strip()]; only a string has [strip]. *)
Definition or_empty_strip (v : option json) : outcome string :=
  match v with
  | None => Return (PyStr.strip "")
  | Some x =>
      if json_truthy x
      then match x with
           | JStr s => Return (PyStr.strip s)
           | _ => Raise AttributeError
           end
      else Return (PyStr.strip "")
  end.

(** [int(q)] on a float: towards zero. *)
Definition trunc (q : Q) : Z :=
  if Qle_bool 0 q then Qfloor q else Qceiling q.

(** ** Reading a user by primary key *)

(** The keys the storage can bind: the column is a 64-bit integer. *)
Definition in_int64 (id : Z) : Prop := - 2 ^ 63 ≤ id < 2 ^ 63.

Definition int64b (id : Z) : bool := (- 2 ^ 63 <=? id) && (id <? 2 ^ 63).

(** [await db.get(models.User, id)]: the row, or [None]; a key that does
    not fit the column raises [OverflowError] when it is bound. *)
Definition db_get (table : gmap Z User) (id : Z) : outcome (option User) :=
  if int64b id then Return (table !! id) else Raise OverflowError.

(** [db.get] on the [users] table of the state. *)
Definition get_user (id : Z) : M (option User) :=
  λ w, (db_get (users w) id, w).

Section Relay.

(** Whether the write of a payload to a socket goes through, given what
    was on the wire so far: [None], or the exception [send_json] raises. *)
Context (transport : list wire_event → conn → payload → option exn).
(** The answer of the completion service to its n-th request. *)
Context (completion : nat → string → string → api_result).
(** The clock of the database at an insert ([server_default=func.now()]). *)
Context (db_now : list Message → Z).
(** Python's [int(s)] on a string; [None] is its [ValueError]. *)
Context (int_of_str : string → option Z).

(** [await ws.send_json(payload)] *)
Definition send_json (ws : conn) (p : payload) : M unit :=
  λ w, match transport (wire w) ws p with
       | None => (Return tt, set_wire (wire w ++ [Delivered ws p]) w)
       | Some e => (Raise e, set_wire (wire w ++ [WriteFailed ws p]) w)
       end.

(** The body of the loop of [send_to_user]:
    [try: await ws.send_json(payload)  except Exception: self.disconnect(user_id, ws)]. *)
Definition deliver (user_id : Z) (p : payload) (ws : conn) : M unit :=
  try_except (send_json ws p) (λ _, disconnect user_id ws).

(** [ConnectionManager.send_to_user]: the loop runs over a snapshot
    [list(self.active.get(user_id, []))]. *)
Definition send_to_user (user_id : Z) (p : payload) : M unit :=
  let* bucket := gets (λ w, active w !! user_id) in
  for_each (match bucket with Some s => elements s | None => [] end)
    (deliver user_id p).

(** [await client.chat.completions.create(...)] followed by
    [resp.choices[0].message.content]. *)
Definition create_completion (sys usr : string) : M (option string) :=
  λ w, match completion (api_calls w) sys usr with
       | Completion c => (Return c, set_api_calls (S (api_calls w)) w)
       | ApiFailure e => (Raise e, set_api_calls (S (api_calls w)) w)
       end.

(** [_rewrite_text]: the result is [(text, changed, failed)]. Both
    [except] clauses return the same triple. *)
Definition _rewrite_text (content : string) (instruction : option string)
  : M (string * bool * bool) :=
  let instr := PyStr.strip (PyStr.or_empty instruction) in
  if negb (PyStr.truthy instr) then ret (content, false, false)
  else
    try_except
      (let* answer := create_completion system_prompt (user_prompt instr content) in
       let* rewritten :=
         match answer with
         | Some s => ret (PyStr.strip s)
         | None => raise AttributeError
         end in
       let* rewritten :=
         if PyStr.startswith (PyStr.lower rewritten) "rewritten message:"
         then match PyStr.after_colon rewritten with
              | Some r => ret (PyStr.strip r)
              | None => raise IndexError
              end
         else ret rewritten in
       if negb (PyStr.truthy rewritten) then ret (content, false, false)
       else ret (rewritten, true, false))
      (λ _, ret (content, false, true)).

(** The next primary key of [messages]. *)
Definition next_message_id (ms : list Message) : Z :=
  1 + foldr Z.max 0 (msg_id <$> ms).

(** [crud.create_message] *)
Definition create_message (sender_id recipient_id : Z)
    (original_text outgoing_text rephrased_text : string)
    (outgoing_instruction instruction : string) : M Message :=
  λ w,
    let msg := {|
      msg_id := next_message_id (messages w);
      sender_id := sender_id;
      recipient_id := recipient_id;
      original_text := Some original_text;
      outgoing_text := Some outgoing_text;
      rephrased_text := Some rephrased_text;
      instruction_used := Some instruction;
      outgoing_instruction_used := Some outgoing_instruction;
      timestamp := db_now (messages w);
    |} in
    (Return msg, set_messages (messages w ++ [msg]) w).

(** [int(v)] *)
Definition py_int (v : json) : outcome Z :=
  match v with
  | JInt n => Return n
  | JBool b => Return (if b then 1 else 0)
  | JFloat q => Return (trunc q)
  | JStr s =>
      match int_of_str s with
      | Some n => Return n
      | None => Raise ValueError
      end
  | JNull | JArr _ | JObj _ => Raise TypeError
  end.

Definition rewrite_failed_notice : payload :=
  ErrorFrame "rewrite_failed"
    (Some "Unable to reach rewriting service; sending fallback text.").

(** The [send] branch of the loop body, from the recipient lookup on. *)
Definition relay (websocket : conn) (sender_id recipient_id : Z) (text : string)
  : M unit :=
  let* recipient := get_user recipient_id in
  match recipient with
  | None => send_json websocket (ErrorFrame "recipient_not_found" None)
  | Some recipient =>
      let* sender := get_user sender_id in
      let sender_outgoing :=
        match sender with
        | Some u => outgoing_instruction u
        | None => Some ""
        end in
      let recipient_incoming := PyStr.or_empty (instruction recipient) in
      let* stage1 := _rewrite_text text sender_outgoing in
      let '(outgoing_text, _, outgoing_error) := stage1 in
      let* stage2 := _rewrite_text outgoing_text (Some recipient_incoming) in
      let '(final_text, _, incoming_error) := stage2 in
      (if outgoing_error || incoming_error
       then send_json websocket rewrite_failed_notice
       else ret tt) ;;
      let* msg :=
        create_message sender_id recipient_id text outgoing_text final_text
          (PyStr.or_empty sender_outgoing) (PyStr.or_empty (Some recipient_incoming)) in
      let payload_sender :=
        ChatMessage (msg_id msg) sender_id recipient_id
          outgoing_text final_text text outgoing_text true in
      let payload_recipient :=
        ChatMessage (msg_id msg) sender_id recipient_id
          final_text final_text text outgoing_text false in
      send_to_user sender_id payload_sender ;;
      send_to_user recipient_id payload_recipient
  end.

(** One turn of [while True] in [ws_endpoint], after [receive_text]: the
    result is the new value of [peer_id]. *)
Definition on_frame (websocket : conn) (user_id : Z) (peer_id : option Z)
    (raw : frame) : M (option Z) :=
  let* data := lift (json_loads raw) in
  let* type := lift (json_get data "type") in
  if is_str type "join" then
    let* v := lift (json_get data "peer_id") in
    let* peer_id := lift (py_int (default (JInt 0) v)) in
    send_json websocket (Joined true peer_id) ;;
    ret (Some peer_id)
  else
    let* type := lift (json_get data "type") in
    if is_str type "send" then
      let sender_id := user_id in
      let* to := lift (json_item data "to") in
      let* recipient_id := lift (py_int to) in
      let* v := lift (json_get data "text") in
      let* text := lift (or_empty_strip v) in
      if negb (PyStr.truthy text) then ret peer_id
      else relay websocket sender_id recipient_id text ;; ret peer_id
    else
      send_json websocket (ErrorFrame "unknown_type" None) ;;
      ret peer_id.

(** The [while True] loop on the frames the client sends before it goes
    away: [receive_text] then raises [WebSocketDisconnect]. *)
Fixpoint receive_loop (websocket : conn) (user_id : Z) (peer_id : option Z)
    (inbox : list frame) : M unit :=
  match inbox with
  | raw :: rest =>
      let* peer_id := on_frame websocket user_id peer_id raw in
      receive_loop websocket user_id peer_id rest
  | [] => raise WebSocketDisconnect
  end.

(** [ws_endpoint] *)
Definition ws_endpoint (websocket : conn) (user_id : Z) (inbox : list frame)
  : M unit :=
  connect user_id websocket ;;
  try_finally
    (except_disconnect (receive_loop websocket user_id None inbox))
    (disconnect user_id websocket).

End Relay.

(** ** Presence tracker *)

Module Presence.

Definition PRESENCE_TIMEOUT_SEC : Q := 15.

(** [x < y] and [x >= y] on timestamps. *)
Definition ltb (x y : Q) : bool := negb (Qle_bool y x).
Definition geb (x y : Q) : bool := Qle_bool y x.

(** [bool(ts)] for a float. *)
Definition truthy (ts : Q) : bool := negb (Qeq_bool ts 0).

(** [_prune_presence] on the global [presence] dict. *)
Definition _prune_presence (now : Q) (presence : gmap Z Q) : gmap Z Q :=
  let stale :=
    fst <$> List.filter (λ '(uid, ts), geb (now - ts)%Q PRESENCE_TIMEOUT_SEC)
              (map_to_list presence) in
  foldl (λ presence uid, delete uid presence) presence stale.

(** [presence_ping], with [now] the value of [time.time()]. *)
Definition presence_ping (user_id : Z) (now : Q) (presence : gmap Z Q)
  : gmap Z Q :=
  _prune_presence now (<[user_id := now]> presence).

(** [_is_online]: [bool(ts and now - ts < PRESENCE_TIMEOUT_SEC)], where
    [ts] is [None], or a float that is false when it is zero. *)
Definition _is_online (user_id : Z) (now : Q) (presence : gmap Z Q) : bool :=
  match presence !! user_id with
  | None => false
  | Some ts =>
      if truthy ts then ltb (now - ts)%Q PRESENCE_TIMEOUT_SEC else false
  end.

End Presence.

(** ** Conversation summaries ([crud.get_conversation_summaries]) *)

Module Crud.

(** One value of the [summaries] dict. *)
Record Summary := mkSummary {
  peer_id : Z;
  peer_nickname : string;
  last_message_id : option Z;
  last_message_sender_id : option Z;
  last_message_text : option string;
  last_message_timestamp : option Z;
}.

(** [a or rest] for a nullable text column [a]. *)
Definition or_else (a : option string) (rest : string) : string :=
  match a with
  | Some s => if PyStr.truthy s then s else rest
  | None => rest
  end.

(** [ORDER BY timestamp DESC] *)
Definition newest_first (a b : Message) : Prop := timestamp b ≤ timestamp a.

#[global] Instance newest_first_dec : RelDecision newest_first :=
  λ a b, Z_le_dec (timestamp b) (timestamp a).

(** The rows of
    [select(Message).where((sender_id == user_id) | (recipient_id == user_id))
       .order_by(Message.timestamp.desc())];
    rows of equal timestamp come in the order of the sort. *)
Definition select_messages_desc (user_id : Z) (messages : list Message)
  : list Message :=
  merge_sort newest_first
    (List.filter
       (λ m, (sender_id m =? user_id) || (recipient_id m =? user_id))
       messages).

Definition is_not_none {A} (o : option A) : bool :=
  match o with Some _ => true | None => false end.

(** The body of [for msg in msgs_result.scalars()]. *)
Definition scan (user_id : Z) (summaries : gmap Z Summary) (msg : Message)
  : gmap Z Summary :=
  let peer_id :=
    if (sender_id msg =? user_id) then recipient_id msg else sender_id msg in
  match summaries !! peer_id with
  | None => summaries
  | Some summary =>
      if is_not_none (last_message_id summary) then summaries
      else
        let mine := (sender_id msg =? user_id) in
        let text :=
          if mine
          then or_else (outgoing_text msg)
                 (or_else (rephrased_text msg) (or_else (original_text msg) ""))
          else or_else (rephrased_text msg)
                 (or_else (outgoing_text msg) (or_else (original_text msg) "")) in
        <[peer_id := {|
            peer_id := Crud.peer_id summary;
            peer_nickname := peer_nickname summary;
            last_message_id := Some (msg_id msg);
            last_message_sender_id := Some (sender_id msg);
            last_message_text := Some text;
            last_message_timestamp := Some (timestamp msg);
          |}]> summaries
  end.

(** [get_conversation_summaries], on the two tables. *)
Definition get_conversation_summaries (users : gmap Z User)
    (messages : list Message) (user_id : Z) : gmap Z Summary :=
  let users := filter (λ '(uid, _), uid ≠ user_id) users in
  let summaries :=
    map_imap (λ uid user,
      Some {|
        peer_id := uid;
        peer_nickname := nickname user;
        last_message_id := None;
        last_message_sender_id := None;
        last_message_text := None;
        last_message_timestamp := None;
      |}) users in
  foldl (scan user_id) summaries (select_messages_desc user_id messages).

(** The display text in the words of the specification: the first
    non-empty text in the order of preference of the direction, or the
    empty string. *)
Definition first_non_empty (candidates : list (option string)) : string :=
  default "" (head (omap (λ c,
    match c with
    | Some s => if decide (s = "") then None else Some s
    | None => None
    end) candidates)).

Definition display_text (viewer : Z) (msg : Message) : string :=
  if decide (sender_id msg = viewer)
  then first_non_empty [outgoing_text msg; rephrased_text msg; original_text msg]
  else first_non_empty [rephrased_text msg; outgoing_text msg; original_text msg].

(** The peer of a message, seen from the viewer. *)
Definition peer_of (viewer : Z) (msg : Message) : Z :=
  if decide (sender_id msg = viewer) then recipient_id msg else sender_id msg.

(** The summary of a peer in the words of the specification: the first of
    the rows that is exchanged with the peer gives the last-message
    fields; they are null when there is none. *)
Definition summary_of (viewer peer : Z) (user : User) (rows : list Message)
  : Summary :=
  match List.find (λ m, bool_decide (peer_of viewer m = peer)) rows with
  | Some m =>
      mkSummary peer (nickname user) (Some (msg_id m)) (Some (sender_id m))
        (Some (display_text viewer m)) (Some (timestamp m))
  | None => mkSummary peer (nickname user) None None None None
  end.

End Crud.

(** ** Vocabulary of the statements *)

(** The state of the registry and of the wire after the writes of a
    fanout, in terms of the events [evs] the fanout produced. *)
Record fanned_out (user_id : Z) (p : payload) (targets : list conn)
    (evs : list wire_event) (w w' : World) : Prop := {
  fo_wire : wire w' = wire w ++ evs;
  fo_users : users w' = users w;
  fo_messages : messages w' = messages w;
  fo_api_calls : api_calls w' = api_calls w;
  fo_targets : event_conn <$> evs = targets;
  fo_payload : ∀ e, e ∈ evs → event_payload e = p;
  fo_others : ∀ k, k ≠ user_id → active w' !! k = active w !! k;
  fo_bucket : ∀ s, active w !! user_id = Some s →
    ∃ s', active w' !! user_id = Some s' ∧
          ∀ ws, ws ∈ s' ↔ ws ∈ s ∧ WriteFailed ws p ∉ evs;
  fo_no_bucket : active w !! user_id = None → active w' !! user_id = None;
}.

(** The connections registered for a user: the bucket, or nothing. *)
Definition registered (user_id : Z) (w : World) : gset conn :=
  default ∅ (active w !! user_id).

(** ** A scenario for the examples

    Two users, one connection each; a wire that never fails; a service
    that answers; a clock that ticks at every insert. *)

Module Scenario.

Definition alice : User := mkUser "alice" (Some "") (Some "formal").
Definition bob : User := mkUser "bob" (Some "pirate speak") (Some "").

Definition reliable (_ : list wire_event) (_ : conn) (_ : payload)
  : option exn := None.

Definition service (n : nat) (_ _ : string) : api_result :=
  match n with
  | O => Completion (Some "Good day to you.")
  | _ => Completion (Some "Rewritten message: Arr, good day to ye!")
  end.

Definition clock (ms : list Message) : Z :=
  1700000000000000 + Z.of_nat (length ms).

Definition no_int (_ : string) : option Z := None.

Definition start : World :=
  mkWorld {[1 := {[10%nat]}; 2 := {[20%nat]}]} {[1 := alice; 2 := bob]} [] [] 0.

(** [{"type": "send", "to": to, "text": text}] *)
Definition send_frame (to : Z) (text : string) : frame :=
  Document (JObj [("type", JStr "send"); ("to", JInt to); ("text", JStr text)]).

End Scenario.

(** ** Storage operations on users and history ([crud.py]) *)

Module Store.

(** What a statement of the session can raise. *)
Inductive db_error :=
| IntegrityError
| MultipleResultsFound.

Inductive res (E A : Type) :=
| Ok (a : A)
| Fail (e : E).
Arguments Ok {E A} a.
Arguments Fail {E A} e.

(** A row of [users]: the primary key and the columns. *)
Definition row : Type := Z * User.

(** The rows of [select(User).where(User.nickname == nickname)]. *)
Definition rows_by_nickname (nick : string) (table : gmap Z User) : list row :=
  List.filter (λ r : row, String.eqb (nickname r.2) nick) (map_to_list table).

(** [get_user_by_nickname]: [scalar_one_or_none()] raises on more than one
    row. *)
Definition get_user_by_nickname (nick : string) (table : gmap Z User)
  : res db_error (option row) :=
  match rows_by_nickname nick table with
  | [] => Ok None
  | [r] => Ok (Some r)
  | _ => Fail MultipleResultsFound
  end.

(** The next primary key of [users]. *)
Definition next_user_id (table : gmap Z User) : Z :=
  1 + foldr Z.max 0 (fst <$> map_to_list table).

(** [create_user]: the commit fails on the [unique=True] of [nickname];
    the columns [instruction] and [outgoing_instruction] take their
    default [""]. *)
Definition create_user (nick : string) (table : gmap Z User)
  : res db_error row * gmap Z User :=
  match rows_by_nickname nick table with
  | [] =>
      let user := mkUser nick (Some "") (Some "") in
      let id := next_user_id table in
      (Ok (id, user), <[id := user]> table)
  | _ => (Fail IntegrityError, table)
  end.

(** [get_users], in the order of the table. *)
Definition get_users (table : gmap Z User) : list row := map_to_list table.

(** [s or ""] for a string. *)
Definition str_or_empty (s : string) : string :=
  if PyStr.truthy s then s else "".

(** [update_instruction]; what [db.get] raises leaves the function. *)
Definition update_instruction (user_id : Z) (instr : string)
    (table : gmap Z User) : outcome (option row) * gmap Z User :=
  match db_get table user_id with
  | Raise e => (Raise e, table)
  | Return None => (Return None, table)
  | Return (Some user) =>
      let user :=
        mkUser (nickname user) (Some (str_or_empty instr))
          (outgoing_instruction user) in
      (Return (Some (user_id, user)), <[user_id := user]> table)
  end.

(** [update_outgoing_instruction] *)
Definition update_outgoing_instruction (user_id : Z) (instr : string)
    (table : gmap Z User) : outcome (option row) * gmap Z User :=
  match db_get table user_id with
  | Raise e => (Raise e, table)
  | Return None => (Return None, table)
  | Return (Some user) =>
      let user :=
        mkUser (nickname user) (instruction user)
          (Some (str_or_empty instr)) in
      (Return (Some (user_id, user)), <[user_id := user]> table)
  end.

(** [ORDER BY timestamp] *)
Definition oldest_first (a b : Message) : Prop := timestamp a ≤ timestamp b.

#[global] Instance oldest_first_dec : RelDecision oldest_first :=
  λ a b, Z_le_dec (timestamp a) (timestamp b).

(** The [where] clause of [get_messages]. *)
Definition between (a b : Z) (m : Message) : bool :=
  (sender_id m =? a) && (recipient_id m =? b)
  || (sender_id m =? b) && (recipient_id m =? a).

(** [get_messages]; rows of equal timestamp come in the order of the
    sort. *)
Definition get_messages (sender_id recipient_id : Z) (messages : list Message)
  : list Message :=
  merge_sort oldest_first (List.filter (between sender_id recipient_id) messages).

End Store.

(** ** Request handlers of [main.py] *)

Module Api.

(** How a handler fails: with an [HTTPException] of its own, or with what
    the storage raised. *)
Inductive http_error :=
| HTTPException (status_code : Z) (detail : string)
| Unhandled (e : Store.db_error)
| Uncaught (e : exn).

(** [register]; the rollback leaves the table as it was. *)
Definition register (nick : string) (table : gmap Z User)
  : Store.res http_error Store.row * gmap Z User :=
  match Store.get_user_by_nickname nick table with
  | Store.Fail e => (Store.Fail (Unhandled e), table)
  | Store.Ok (Some existing) => (Store.Ok existing, table)
  | Store.Ok None =>
      match Store.create_user nick table with
      | (Store.Ok user, table) => (Store.Ok user, table)
      | (Store.Fail Store.IntegrityError, table) =>
          match Store.get_user_by_nickname nick table with
          | Store.Ok (Some existing) => (Store.Ok existing, table)
          | Store.Ok None =>
              (Store.Fail (HTTPException 500 "Could not create user"), table)
          | Store.Fail e => (Store.Fail (Unhandled e), table)
          end
      | (Store.Fail e, table) => (Store.Fail (Unhandled e), table)
      end
  end.

(** [set_instruction] *)
Definition set_instruction (user_id : Z) (instr : string) (table : gmap Z User)
  : Store.res http_error Store.row * gmap Z User :=
  match Store.update_instruction user_id instr table with
  | (Raise e, table) => (Store.Fail (Uncaught e), table)
  | (Return None, table) =>
      (Store.Fail (HTTPException 404 "User not found"), table)
  | (Return (Some user), table) => (Store.Ok user, table)
  end.

(** [set_outgoing_instruction] *)
Definition set_outgoing_instruction (user_id : Z) (instr : string)
    (table : gmap Z User) : Store.res http_error Store.row * gmap Z User :=
  match Store.update_outgoing_instruction user_id instr table with
  | (Raise e, table) => (Store.Fail (Uncaught e), table)
  | (Return None, table) =>
      (Store.Fail (HTTPException 404 "User not found"), table)
  | (Return (Some user), table) => (Store.Ok user, table)
  end.

(** [schemas.UserOut] *)
Record UserOut := mkUserOut {
  out_id : Z;
  out_nickname : string;
  out_instruction : string;
  out_outgoing_instruction : string;
  out_is_online : bool;
}.

(** [_user_to_schema] *)
Definition _user_to_schema (user : Store.row) (now : Q) (presence : gmap Z Q)
  : UserOut :=
  {| out_id := user.1;
     out_nickname := nickname user.2;
     out_instruction := PyStr.or_empty (instruction user.2);
     out_outgoing_instruction := PyStr.or_empty (outgoing_instruction user.2);
     out_is_online := Presence._is_online user.1 now presence |}.

(** [users]: the response and the [presence] dict after the request, with
    [now] the value of [time.time()]. *)
Definition users (now : Q) (presence : gmap Z Q) (table : gmap Z User)
  : list UserOut * gmap Z Q :=
  let presence := Presence._prune_presence now presence in
  let records := Store.get_users table in
  ((λ user, _user_to_schema user now presence) <$> records, presence).

(** [users_available] *)
Definition users_available (now : Q) (presence : gmap Z Q)
    (table : gmap Z User) : list UserOut * gmap Z Q :=
  let presence := Presence._prune_presence now presence in
  let records := Store.get_users table in
  ((λ user, _user_to_schema user now presence)
     <$> List.filter (λ user : Store.row, Presence._is_online user.1 now presence)
           records,
   presence).

(** [schemas.ConversationSummary] *)
Record ConversationSummary := mkConversationSummary {
  cs_peer_id : Z;
  cs_nickname : string;
  cs_is_online : bool;
  cs_last_message_id : option Z;
  cs_last_message_sender_id : option Z;
  cs_last_message_text : option string;
  cs_last_message_timestamp : option Z;
}.

(** The key of [output.sort]:
    [(ts is None, -ts.timestamp() if ts else 0, nickname.lower())]. *)
Definition sort_key (item : ConversationSummary) : bool * Z * string :=
  (match cs_last_message_timestamp item with None => true | Some _ => false end,
   match cs_last_message_timestamp item with Some ts => - ts | None => 0 end,
   PyStr.lower (cs_nickname item)).

(** [k1 <= k2] on such tuples. *)
Definition key_leb (k1 k2 : bool * Z * string) : bool :=
  let '(b1, z1, s1) := k1 in
  let '(b2, z2, s2) := k2 in
  if Bool.eqb b1 b2
  then if z1 =? z2 then String.leb s1 s2 else z1 <? z2
  else negb b1 && b2.

Definition by_key (a b : ConversationSummary) : Prop :=
  key_leb (sort_key a) (sort_key b) = true.

#[global] Instance by_key_dec : RelDecision by_key :=
  λ a b, bool_eq_dec (key_leb (sort_key a) (sort_key b)) true.


(** The order the chat list is read in: an item with a last message comes
    before one without, and a later last message before an earlier one. *)
Definition recent_first (a b : ConversationSummary) : Prop :=
  match cs_last_message_timestamp a, cs_last_message_timestamp b with
  | Some ta, Some tb => tb ≤ ta
  | Some _, None => True
  | None, Some _ => False
  | None, None => True
  end.

End Api.

(** ** What a connection task may do to the state *)

(** The tables and the registry after some turns of a message loop,
    against what they were before: the users are the same, no connection
    was added, the history and the wire were only appended to, and
    distinct message ids stayed distinct. *)
Record evolves (w w' : World) : Prop := {
  ev_users : users w' = users w;
  ev_registry : ∀ k, registered k w' ⊆ registered k w;
  ev_messages : messages w `prefix_of` messages w';
  ev_ids : NoDup (msg_id <$> messages w) → NoDup (msg_id <$> messages w');
  ev_wire : wire w `prefix_of` wire w';
}.

(** The [unique=True] of [users.nickname], as a property of the table. *)
Definition unique_nicknames (table : gmap Z User) : Prop :=
  ∀ i j u v,
    table !! i = Some u → table !! j = Some v →
    nickname u = nickname v → i = j.

(** The timestamps [presence_ping] writes are readings of [time.time()],
    which is not zero after 1970: no entry of the dict is [0.0]. *)
Definition nonzero_timestamps (presence : gmap Z Q) : Prop :=
  ∀ user_id ts, presence !! user_id = Some ts → ¬ (ts == 0)%Q.

(** * Properties *)

(** ** Python strings *)

Lemma truthy_true s : PyStr.truthy s = true ↔ s ≠ "".
Proof. destruct s; simpl; split; intros; congruence. Qed.

Lemma truthy_false s : PyStr.truthy s = false ↔ s = "".
Proof. destruct s; simpl; split; intros; congruence. Qed.

(** ** Connection registry *)

Lemma set_active_same w : set_active (active w) w = w.
Proof. by destruct w. Qed.

Lemma bucket_contradiction bucket :
  bucket_truthy bucket && negb (bucket_truthy bucket) = false.
Proof. by destruct (bucket_truthy bucket). Qed.

Lemma alter_remove_absent (m : gmap Z (gset conn)) user_id websocket :
  (∀ s, m !! user_id = Some s → websocket ∉ s) →
  alter (λ s, s ∖ {[websocket]}) user_id m = m.
Proof.
  intros Hout. apply map_eq. intros k. rewrite lookup_alter.
  destruct (decide (user_id = k)) as [->|]; [|done].
  destruct (m !! k) as [s|] eqn:Hs; [|done].
  simpl. f_equal. specialize (Hout s eq_refl).
  apply set_eq. intros x. rewrite elem_of_difference, elem_of_singleton.
  split; [tauto|]. intros Hx. split; [done|]. by intros ->.
Qed.

(** What [disconnect] does in every case: the connection leaves the bucket
    of the user, and the bucket stays where it is. *)
Lemma disconnect_run w user_id websocket :
  disconnect user_id websocket w =
    (Return tt,
     set_active (alter (λ s, s ∖ {[websocket]}) user_id (active w)) w).
Proof.
  unfold disconnect, bind, gets.
  destruct (active w !! user_id) as [s|] eqn:Hs; simpl.
  - destruct (decide (websocket ∈ s)) as [Hin|Hout].
    + assert (s ≠ ∅) as Hne by set_solver.
      rewrite (bool_decide_eq_true_2 _ Hne), (bool_decide_eq_true_2 _ Hin). simpl.
      unfold bucket_remove. rewrite Hs, (bool_decide_eq_true_2 _ Hin). simpl.
      rewrite lookup_insert_eq. rewrite bucket_contradiction. unfold ret.
      f_equal. f_equal. apply map_eq. intros k.
      rewrite lookup_alter, lookup_insert.
      destruct (decide (user_id = k)) as [->|]; [by rewrite Hs | done].
    + rewrite (bool_decide_eq_false_2 _ Hout), andb_false_r. unfold ret.
      rewrite Hs, bucket_contradiction.
      rewrite alter_remove_absent, set_active_same; [done|].
      intros s' Hs'. congruence.
  - unfold ret. rewrite Hs. simpl.
    rewrite alter_remove_absent, set_active_same; [done|].
    intros s' Hs'. congruence.
Qed.

(** No call of [disconnect] removes a key of the registry. *)
Lemma disconnect_keeps_keys w user_id websocket w' :
  disconnect user_id websocket w = (Return tt, w') →
  dom (active w') = dom (active w).
Proof.
  rewrite disconnect_run. intros [= <-]. simpl.
  apply set_eq. intros k. rewrite !elem_of_dom, lookup_alter.
  destruct (decide (user_id = k)) as [->|]; [|done].
  by rewrite fmap_is_Some.
Qed.

(** C3, on the code: when the only connection of user 1 joins and then
    leaves, [disconnect] empties the bucket and leaves the key 1 in the
    registry, mapped to the empty set; the test [bucket and not bucket]
    that guards the removal of the key is false for every bucket. *)
Theorem disconnect_last_connection_keeps_key :
  ∃ w1 w2,
    connect 1 7%nat (mkWorld ∅ ∅ [] [] 0) = (Return tt, w1) ∧
    active w1 !! 1 = Some {[7%nat]} ∧
    disconnect 1 7%nat w1 = (Return tt, w2) ∧
    active w2 !! 1 = Some ∅.
Proof.
  eexists _, _. split; [reflexivity|]. split.
  - simpl; rewrite lookup_insert_eq; f_equal; set_solver.
  - split; [apply disconnect_run|]. simpl.
    rewrite lookup_alter, decide_True by done.
    rewrite lookup_insert_eq; simpl; f_equal; set_solver.
Qed.

(** C10: [disconnect] of a connection that is not registered for the user,
    the user having a bucket or not, returns without raising and leaves
    the whole state as it was. *)
Theorem disconnect_unregistered_noop w user_id websocket :
  (∀ bucket, active w !! user_id = Some bucket → websocket ∉ bucket) →
  disconnect user_id websocket w = (Return tt, w).
Proof.
  intros Hout. rewrite disconnect_run.
  by rewrite alter_remove_absent, set_active_same.
Qed.

Lemma disconnect_unregistered_noop_witness :
  disconnect 1 8%nat (mkWorld {[1 := {[7%nat]}]} ∅ [] [] 0)
  = (Return tt, mkWorld {[1 := {[7%nat]}]} ∅ [] [] 0).
Proof.
  apply disconnect_unregistered_noop. simpl. intros bucket.
  rewrite lookup_singleton_eq. intros [= <-]. set_solver.
Defined.

(** ** Fanout *)

Section Fanout.

Context (transport : list wire_event → conn → payload → option exn).

(** One write: it lands or it fails, and a failed write costs the
    connection its registration; nothing is raised. *)
Lemma deliver_run user_id p ws w :
  deliver transport user_id p ws w =
    match transport (wire w) ws p with
    | None => (Return tt, set_wire (wire w ++ [Delivered ws p]) w)
    | Some _ =>
        (Return tt,
         set_active (alter (λ s, s ∖ {[ws]}) user_id (active w))
           (set_wire (wire w ++ [WriteFailed ws p]) w))
    end.
Proof.
  unfold deliver, try_except, send_json.
  destruct (transport (wire w) ws p); [|done].
  by rewrite disconnect_run.
Qed.

Lemma fanout_loop user_id p targets : ∀ w,
  ∃ w' evs,
    for_each targets (deliver transport user_id p) w = (Return tt, w') ∧
    fanned_out user_id p targets evs w w'.
Proof.
  induction targets as [|ws targets IH]; intros w.
  - exists w, []. split; [done|].
    split; rewrite ?app_nil_r; try done.
    + intros e He. by apply elem_of_nil in He.
    + intros s Hs. exists s. split; [done|]. intros x.
      split; [|tauto]. intros Hx. split; [done|]. by intros He%elem_of_nil.
  - simpl. unfold bind at 1. rewrite deliver_run.
    destruct (transport (wire w) ws p) as [e|].
    + destruct (IH (set_active (alter (λ s, s ∖ {[ws]}) user_id (active w))
                      (set_wire (wire w ++ [WriteFailed ws p]) w)))
        as (w' & evs & Hrun & [Hw Hu Hm Ha Ht Hp Ho Hb Hn]).
      exists w', (WriteFailed ws p :: evs). split; [done|].
      simpl in *. split; simpl; try done.
      * by rewrite Hw, <- app_assoc.
      * by f_equal.
      * intros e' [->|He']%elem_of_cons; [done|by apply Hp].
      * intros k Hk. by rewrite (Ho k Hk), lookup_alter_ne.
      * intros s Hs.
        destruct (Hb (s ∖ {[ws]})) as (s' & Hs' & Hiff).
        { by rewrite lookup_alter_eq, Hs. }
        exists s'. split; [done|]. intros x.
        rewrite Hiff, elem_of_difference, elem_of_singleton, elem_of_cons.
        split.
        -- intros [[Hx Hne] Hf]. split; [done|].
           intros [[= ->]|?]; tauto.
        -- intros [Hx Hf]. repeat split; [done| |tauto].
           intros ->. apply Hf. by left.
      * intros Hnone. apply Hn. by rewrite lookup_alter_eq, Hnone.
    + destruct (IH (set_wire (wire w ++ [Delivered ws p]) w))
        as (w' & evs & Hrun & [Hw Hu Hm Ha Ht Hp Ho Hb Hn]).
      exists w', (Delivered ws p :: evs). split; [done|].
      simpl in *. split; simpl; try done.
      * by rewrite Hw, <- app_assoc.
      * by f_equal.
      * intros e' [->|He']%elem_of_cons; [done|by apply Hp].
      * intros s Hs. destruct (Hb s Hs) as (s' & Hs' & Hiff).
        exists s'. split; [done|]. intros x.
        rewrite Hiff, elem_of_cons.
        split; intros [Hx Hf]; (split; [done|]); [|tauto].
        intros [?|?]; [done|tauto].
Qed.

Lemma send_to_user_run user_id p w :
  ∃ w' evs,
    send_to_user transport user_id p w = (Return tt, w') ∧
    fanned_out user_id p (elements (registered user_id w)) evs w w'.
Proof.
  unfold send_to_user, registered, bind, gets.
  destruct (active w !! user_id) as [s|]; simpl.
  - apply fanout_loop.
  - rewrite elements_empty. apply (fanout_loop user_id p []).
Qed.

Lemma fanned_out_registered user_id p targets evs w w' :
  fanned_out user_id p targets evs w w' →
  ∀ ws, ws ∈ registered user_id w' ↔
        ws ∈ registered user_id w ∧ WriteFailed ws p ∉ evs.
Proof.
  intros [_ _ _ _ _ _ _ Hb Hn] ws. unfold registered.
  destruct (active w !! user_id) as [s|] eqn:Hs.
  - destruct (Hb s eq_refl) as (s' & -> & Hiff). apply Hiff.
  - rewrite (Hn eq_refl). simpl.
    split; [by intros ?%not_elem_of_empty | by intros [?%not_elem_of_empty _]].
Qed.

Lemma fanned_out_written user_id p targets evs w w' ws :
  fanned_out user_id p targets evs w w' →
  ws ∈ targets →
  Delivered ws p ∈ evs ∨ WriteFailed ws p ∈ evs.
Proof.
  intros [_ _ _ _ Ht Hp _ _ _] Hin. rewrite <- Ht in Hin.
  apply list_elem_of_fmap in Hin as (e & -> & He).
  specialize (Hp e He). destruct e as [ws' p'|ws' p']; simpl in *; subst; auto.
Qed.

(** C7: [send_to_user] returns without raising whatever the transport
    does; it writes the payload once to every connection registered for
    the user; a connection whose write fails is no longer registered
    afterwards; every other connection of the user has the payload
    delivered and stays registered; the buckets of other users are not
    touched. *)
Theorem send_to_user_best_effort user_id p w :
  ∃ w' evs,
    send_to_user transport user_id p w = (Return tt, w') ∧
    wire w' = wire w ++ evs ∧
    event_conn <$> evs = elements (registered user_id w) ∧
    (∀ e, e ∈ evs → event_payload e = p) ∧
    (∀ ws, ws ∈ registered user_id w → WriteFailed ws p ∈ evs →
           ws ∉ registered user_id w') ∧
    (∀ ws, ws ∈ registered user_id w → WriteFailed ws p ∉ evs →
           Delivered ws p ∈ evs ∧ ws ∈ registered user_id w') ∧
    (∀ k, k ≠ user_id → active w' !! k = active w !! k).
Proof.
  destruct (send_to_user_run user_id p w) as (w' & evs & Hrun & Hfo).
  exists w', evs. split; [done|].
  pose proof (fanned_out_registered _ _ _ _ _ _ Hfo) as Hreg.
  split; [apply Hfo|]. split; [apply Hfo|]. split; [apply Hfo|].
  split; [|split; [|apply Hfo]].
  - intros ws _ Hf. rewrite Hreg. tauto.
  - intros ws Hin Hf. split; [|by rewrite Hreg].
    destruct (fanned_out_written _ _ _ _ _ _ ws Hfo); [|done|done].
    by apply elem_of_elements.
Qed.

End Fanout.

(** A fanout to two connections of which one is broken: the payload
    reaches the other one, and only the broken one is dropped. *)
Example send_to_user_one_dead :
  let transport := λ (_ : list wire_event) (ws : conn) (_ : payload),
    if decide (ws = 7%nat) then Some RuntimeError else None in
  let p := ErrorFrame "x" None in
  ∃ w',
    send_to_user transport 1 p (mkWorld {[1 := {[7%nat; 8%nat]}]} ∅ [] [] 0)
      = (Return tt, w') ∧
    Delivered 8%nat p ∈ wire w' ∧ WriteFailed 7%nat p ∈ wire w' ∧
    active w' !! 1 = Some {[8%nat]}.
Proof.
  eexists. split; [vm_compute; reflexivity|].
  split; [|split].
  - vm_compute. set_solver.
  - vm_compute. set_solver.
  - vm_compute. reflexivity.
Qed.


(** ** Rewrite pipeline *)

Section Rewrite.

Context (completion : nat → string → string → api_result).

Lemma set_api_calls_same w : set_api_calls (api_calls w) w = w.
Proof. by destruct w. Qed.

(** [_rewrite_text] always returns; it touches nothing but the request
    counter; and its text is empty only if its input is. *)
Lemma rewrite_run content instruction w :
  ∃ text changed failed n,
    _rewrite_text completion content instruction w
      = (Return (text, changed, failed), set_api_calls n w) ∧
    (content ≠ "" → text ≠ "").
Proof.
  unfold _rewrite_text.
  destruct (PyStr.truthy (PyStr.strip (PyStr.or_empty instruction))); simpl.
  2: { exists content, false, false, (api_calls w).
       by rewrite set_api_calls_same. }
  unfold try_except, bind, create_completion.
  destruct (completion _ _ _) as [[s|]|e]; simpl.
  - destruct (PyStr.startswith _ _); simpl.
    + destruct (PyStr.after_colon _) as [r|]; simpl.
      * destruct (PyStr.truthy (PyStr.strip r)) eqn:Hr; simpl.
        -- eexists _, _, _, _. split; [reflexivity|].
           intros _. by apply truthy_true.
        -- by eexists _, _, _, _.
      * by eexists _, _, _, _.
    + destruct (PyStr.truthy (PyStr.strip s)) eqn:Hr; simpl.
      * eexists _, _, _, _. split; [reflexivity|].
        intros _. by apply truthy_true.
      * by eexists _, _, _, _.
  - by eexists _, _, _, _.
  - by eexists _, _, _, _.
Qed.

(** C4: with an instruction that is not blank, when the request to the
    completion service raises, whatever the exception, [_rewrite_text]
    returns the input text with [changed = False] and [failed = True];
    and [_rewrite_text] returns, never raises, on every input and for
    every behaviour of the service. *)
Theorem rewrite_failure_falls_back :
  (∀ content instruction w, ∃ result w',
     _rewrite_text completion content instruction w = (Return result, w')) ∧
  (∀ content instruction w e,
     let instr := PyStr.strip (PyStr.or_empty instruction) in
     instr ≠ "" →
     completion (api_calls w) system_prompt (user_prompt instr content)
       = ApiFailure e →
     _rewrite_text completion content instruction w
       = (Return (content, false, true), set_api_calls (S (api_calls w)) w)).
Proof.
  split.
  - intros content instruction w.
    destruct (rewrite_run content instruction w) as (t & c & f & n & H & _).
    eauto.
  - intros content instruction w e instr Hinstr Hfail.
    unfold _rewrite_text. fold instr.
    apply truthy_true in Hinstr. rewrite Hinstr. simpl.
    unfold try_except, bind, create_completion. by rewrite Hfail.
Qed.

End Rewrite.

Lemma rewrite_failure_falls_back_witness :
  _rewrite_text (λ _ _ _, ApiFailure RateLimitError) "hey" (Some " formal ")
    (mkWorld ∅ ∅ [] [] 0)
  = (Return ("hey", false, true), mkWorld ∅ ∅ [] [] 1).
Proof.
  apply (proj2 (rewrite_failure_falls_back (λ _ _ _, ApiFailure RateLimitError))
           "hey" (Some " formal ") (mkWorld ∅ ∅ [] [] 0) RateLimitError).
  - vm_compute. discriminate.
  - reflexivity.
Defined.

(** ** Reading a user by primary key *)

Lemma int64b_true id : int64b id = true ↔ in_int64 id.
Proof.
  unfold int64b, in_int64. rewrite andb_true_iff, Z.leb_le, Z.ltb_lt. done.
Qed.

Lemma db_get_in_range (table : gmap Z User) id :
  in_int64 id → db_get table id = Return (table !! id).
Proof. intros Hid%int64b_true. unfold db_get. by rewrite Hid. Qed.

Lemma db_get_overflow (table : gmap Z User) id :
  ¬ in_int64 id → db_get table id = Raise OverflowError.
Proof.
  intros Hid. unfold db_get. destruct (int64b id) eqn:Hb; [|done].
  by apply int64b_true in Hb.
Qed.

(** ** The message loop *)

Section Loop.

Context (transport : list wire_event → conn → payload → option exn).
Context (completion : nat → string → string → api_result).
Context (db_now : list Message → Z).
Context (int_of_str : string → option Z).

Lemma relay_run websocket sender_id recipient_id text w recipient :
  in_int64 sender_id → in_int64 recipient_id →
  users w !! recipient_id = Some recipient →
  let sender_outgoing :=
    match users w !! sender_id with
    | Some u => outgoing_instruction u
    | None => Some ""
    end in
  let incoming := PyStr.or_empty (instruction recipient) in
  ∃ o c1 f1 n1 fin c2 f2 n2,
    _rewrite_text completion text sender_outgoing w
      = (Return (o, c1, f1), set_api_calls n1 w) ∧
    _rewrite_text completion o (Some incoming) (set_api_calls n1 w)
      = (Return (fin, c2, f2), set_api_calls n2 (set_api_calls n1 w)) ∧
    (text ≠ "" → o ≠ "" ∧ fin ≠ "") ∧
    match (if f1 || f2
           then transport (wire w) websocket rewrite_failed_notice
           else None) with
    | Some e =>
        relay transport completion db_now websocket sender_id recipient_id text w
        = (Raise e,
           mkWorld (active w) (users w) (messages w)
             (wire w ++ [WriteFailed websocket rewrite_failed_notice]) n2)
    | None =>
        ∃ evs_s evs_r w2 w',
          let notice :=
            if f1 || f2 then [Delivered websocket rewrite_failed_notice] else [] in
          let msg :=
            mkMessage (next_message_id (messages w)) sender_id recipient_id
              (Some text) (Some o) (Some fin) (Some incoming)
              (Some (PyStr.or_empty sender_outgoing)) (db_now (messages w)) in
          let w1 :=
            mkWorld (active w) (users w) (messages w ++ [msg])
              (wire w ++ notice) n2 in
          relay transport completion db_now websocket sender_id recipient_id text w
            = (Return tt, w') ∧
          fanned_out sender_id
            (ChatMessage (msg_id msg) sender_id recipient_id o fin text o true)
            (elements (registered sender_id w1)) evs_s w1 w2 ∧
          fanned_out recipient_id
            (ChatMessage (msg_id msg) sender_id recipient_id fin fin text o false)
            (elements (registered recipient_id w2)) evs_r w2 w'
    end.
Proof.
  intros Hsid Hrid Hrec sender_outgoing incoming.
  destruct (rewrite_run completion text sender_outgoing w)
    as (o & c1 & f1 & n1 & H1 & Hne1).
  destruct (rewrite_run completion o (Some incoming) (set_api_calls n1 w))
    as (fin & c2 & f2 & n2 & H2 & Hne2).
  exists o, c1, f1, n1, fin, c2, f2, n2.
  split; [done|]. split; [done|]. split; [tauto|].
  assert (∀ w0 : World,
    ∃ evs_s evs_r w2 w',
      (let* msg := create_message db_now sender_id recipient_id text o fin
                     (PyStr.or_empty sender_outgoing) incoming in
       send_to_user transport sender_id
         (ChatMessage (msg_id msg) sender_id recipient_id o fin text o true) ;;
       send_to_user transport recipient_id
         (ChatMessage (msg_id msg) sender_id recipient_id fin fin text o false)) w0
      = (Return tt, w') ∧
      let msg :=
        mkMessage (next_message_id (messages w0)) sender_id recipient_id
          (Some text) (Some o) (Some fin) (Some incoming)
          (Some (PyStr.or_empty sender_outgoing)) (db_now (messages w0)) in
      let w1 := set_messages (messages w0 ++ [msg]) w0 in
      fanned_out sender_id
        (ChatMessage (msg_id msg) sender_id recipient_id o fin text o true)
        (elements (registered sender_id w1)) evs_s w1 w2 ∧
      fanned_out recipient_id
        (ChatMessage (msg_id msg) sender_id recipient_id fin fin text o false)
        (elements (registered recipient_id w2)) evs_r w2 w') as Hrest.
  { intros w0. unfold bind at 1. unfold create_message. cbv beta iota zeta.
    set (msg := mkMessage _ _ _ _ _ _ _ _ _).
    set (w1 := set_messages _ w0).
    destruct (send_to_user_run transport sender_id
                (ChatMessage (msg_id msg) sender_id recipient_id o fin text o true) w1)
      as (w2 & evs_s & Hs & Hfs).
    destruct (send_to_user_run transport recipient_id
                (ChatMessage (msg_id msg) sender_id recipient_id fin fin text o false) w2)
      as (w' & evs_r & Hr & Hfr).
    exists evs_s, evs_r, w2, w'. split; [|done].
    unfold bind. by rewrite Hs. }
  set (rest :=
    (let* msg := create_message db_now sender_id recipient_id text o fin
                   (PyStr.or_empty sender_outgoing) incoming in
     send_to_user transport sender_id
       (ChatMessage (msg_id msg) sender_id recipient_id o fin text o true) ;;
     send_to_user transport recipient_id
       (ChatMessage (msg_id msg) sender_id recipient_id fin fin text o false))
    : M unit) in Hrest.
  assert (relay transport completion db_now websocket sender_id recipient_id text w
          = bind (if f1 || f2
                  then send_json transport websocket rewrite_failed_notice
                  else ret tt) (λ _, rest)
              (set_api_calls n2 (set_api_calls n1 w))) as ->.
  { unfold relay. unfold bind at 1. unfold get_user at 1.
    rewrite (db_get_in_range _ _ Hrid), Hrec.
    unfold bind at 1. unfold get_user at 1.
    rewrite (db_get_in_range _ _ Hsid).
    unfold bind at 1. fold sender_outgoing. rewrite H1.
    unfold bind at 1. fold incoming. by rewrite H2. }
  destruct (f1 || f2).
  - unfold bind, send_json. simpl.
    destruct (transport (wire w) websocket rewrite_failed_notice) as [e|]; [done|].
    apply Hrest.
  - unfold bind, ret. simpl. rewrite app_nil_r. apply Hrest.
Qed.

Lemma fanned_out_event user_id p (S : gset conn) evs w w' e :
  fanned_out user_id p (elements S) evs w w' →
  e ∈ evs → event_payload e = p ∧ event_conn e ∈ S.
Proof.
  intros [_ _ _ _ Ht Hp _ _ _] He. split; [by apply Hp|].
  apply elem_of_elements. rewrite <- Ht. by apply list_elem_of_fmap_2.
Qed.


(** A [send] frame that names a recipient and carries text reaches the
    relay. *)
Lemma on_frame_send websocket user_id peer_id fields to recipient_id text w :
  assoc "type" fields = Some (JStr "send") →
  assoc "to" fields = Some to →
  py_int int_of_str to = Return recipient_id →
  or_empty_strip (assoc "text" fields) = Return text →
  on_frame transport completion db_now int_of_str websocket user_id peer_id
    (Document (JObj fields)) w
  = if PyStr.truthy text
    then (relay transport completion db_now websocket user_id recipient_id text ;;
          ret peer_id) w
    else (Return peer_id, w).
Proof.
  intros Htype Hto Hint Htext.
  unfold on_frame, bind at 1 2, lift. simpl. rewrite Htype. simpl.
  unfold bind at 1. simpl.
  unfold bind at 1. simpl. rewrite Hto.
  unfold bind at 1. rewrite Hint.
  unfold bind at 1. unfold bind at 1. rewrite Htext.
  by destruct (PyStr.truthy text).
Qed.


Lemma relay_no_recipient websocket sender_id recipient_id text w :
  in_int64 recipient_id →
  users w !! recipient_id = None →
  relay transport completion db_now websocket sender_id recipient_id text w
  = send_json transport websocket (ErrorFrame "recipient_not_found" None) w.
Proof.
  intros Hrid Hrec. unfold relay. unfold bind at 1. unfold get_user at 1.
  by rewrite (db_get_in_range _ _ Hrid), Hrec.
Qed.

(** A key that does not fit the column: [db.get] raises, and the
    exception leaves the relay before anything is written. *)
Lemma relay_recipient_overflow websocket sender_id recipient_id text w :
  ¬ in_int64 recipient_id →
  relay transport completion db_now websocket sender_id recipient_id text w
  = (Raise OverflowError, w).
Proof.
  intros Hrid. unfold relay. unfold bind at 1. unfold get_user at 1.
  by rewrite (db_get_overflow _ _ Hrid).
Qed.

Lemma relay_sender_overflow websocket sender_id recipient_id text w recipient :
  in_int64 recipient_id →
  users w !! recipient_id = Some recipient →
  ¬ in_int64 sender_id →
  relay transport completion db_now websocket sender_id recipient_id text w
  = (Raise OverflowError, w).
Proof.
  intros Hrid Hrec Hsid. unfold relay. unfold bind at 1. unfold get_user at 1.
  rewrite (db_get_in_range _ _ Hrid), Hrec.
  unfold bind at 1. unfold get_user at 1.
  by rewrite (db_get_overflow _ _ Hsid).
Qed.

(** The ways of the relay, by what the two lookups give. *)
Lemma relay_lookups websocket sender_id recipient_id text w :
  relay transport completion db_now websocket sender_id recipient_id text w
    = (Raise OverflowError, w) ∨
  (in_int64 recipient_id ∧ users w !! recipient_id = None) ∨
  (in_int64 sender_id ∧ in_int64 recipient_id ∧
   ∃ recipient, users w !! recipient_id = Some recipient).
Proof.
  destruct (decide (in_int64 recipient_id)) as [Hrid|Hrid];
    [|left; by apply relay_recipient_overflow].
  destruct (users w !! recipient_id) as [recipient|] eqn:Hrec; [|auto].
  destruct (decide (in_int64 sender_id)) as [Hsid|Hsid].
  - right. right. eauto.
  - left. by eapply relay_sender_overflow.
Qed.

Lemma send_json_frame ws p w result w' :
  send_json transport ws p w = (result, w') →
  messages w' = messages w ∧ api_calls w' = api_calls w ∧
  active w' = active w ∧ users w' = users w.
Proof.
  unfold send_json. by destruct (transport _ _ _); intros [= <- <-].
Qed.

(** What a turn of the loop adds to the [messages] table. *)
Lemma on_frame_persists websocket user_id peer_id raw w result w' :
  on_frame transport completion db_now int_of_str websocket user_id peer_id raw w
    = (result, w') →
  messages w' = messages w ∨
  ∃ msg original outgoing rephrased,
    messages w' = messages w ++ [msg] ∧
    original_text msg = Some original ∧ original ≠ "" ∧
    outgoing_text msg = Some outgoing ∧ outgoing ≠ "" ∧
    rephrased_text msg = Some rephrased ∧ rephrased ≠ "".
Proof.
  destruct raw as [|data].
  { unfold on_frame, bind, lift. simpl. intros [= <- <-]. by left. }
  destruct data as [| | | | | |fields];
    try (unfold on_frame, bind, lift; simpl; intros [= <- <-]; by left).
  unfold on_frame, bind at 1 2, lift. simpl.
  destruct (is_str (assoc "type" fields) "join").
  { unfold bind at 1. simpl. unfold bind at 1.
    destruct (py_int _ _) as [n|e]; [|intros [= <- <-]; by left].
    unfold bind, ret.
    destruct (send_json _ _ _ _) as [[[]|e] w1] eqn:Hs;
      intros [= <- <-]; left; by apply send_json_frame in Hs as [? _]. }
  unfold bind at 1. simpl.
  destruct (is_str (assoc "type" fields) "send").
  2: { unfold bind, ret.
       destruct (send_json _ _ _ _) as [[[]|e] w1] eqn:Hs;
         intros [= <- <-]; left; by apply send_json_frame in Hs as [? _]. }
  unfold bind at 1. simpl.
  destruct (assoc "to" fields) as [to|]; [|intros [= <- <-]; by left].
  unfold bind at 1.
  destruct (py_int _ to) as [recipient_id|e]; [|intros [= <- <-]; by left].
  unfold bind at 1. unfold bind at 1.
  destruct (or_empty_strip _) as [text|e]; [|intros [= <- <-]; by left].
  destruct (PyStr.truthy text) eqn:Htext; simpl; [|intros [= <- <-]; by left].
  apply truthy_true in Htext.
  destruct (relay_lookups websocket user_id recipient_id text w)
    as [Hov|[[Hrid Hrec]|(Hsid & Hrid & recipient & Hrec)]].
  - unfold bind. rewrite Hov. intros [= <- <-]. by left.
  - unfold bind. rewrite (relay_no_recipient _ _ _ _ _ Hrid Hrec). unfold ret.
    destruct (send_json _ _ _ _) as [[[]|e] w1] eqn:Hs;
      intros [= <- <-]; left; by apply send_json_frame in Hs as [? _].
  - destruct (relay_run websocket user_id recipient_id text w recipient
                Hsid Hrid Hrec)
      as (o & c1 & f1 & n1 & fin & c2 & f2 & n2 & _ & _ & Hne & Hrelay).
    destruct (Hne Htext) as [Ho Hfin].
    destruct (if f1 || f2 then _ else None) as [e|].
    + unfold bind. rewrite Hrelay. intros [= <- <-]. by left.
    + destruct Hrelay as (evs_s & evs_r & w2 & w'' & Hrelay & Hfs & Hfr).
      unfold bind. rewrite Hrelay. unfold ret. intros [= <- <-]. right.
      eexists _, text, o, fin.
      rewrite (fo_messages _ _ _ _ _ _ Hfr), (fo_messages _ _ _ _ _ _ Hfs).
      simpl. done.
Qed.

(** C2: each stage returns a text that is not empty when its input is
    not empty, whatever the service does; and whatever a turn of the loop
    persists is one message whose [original_text], [outgoing_text] and
    [rephrased_text] are all non-empty. *)
Theorem persisted_texts_non_empty :
  (∀ content instruction w,
     content ≠ "" →
     ∃ text changed failed w',
       _rewrite_text completion content instruction w
         = (Return (text, changed, failed), w') ∧
       text ≠ "") ∧
  (∀ websocket user_id peer_id raw w result w',
     on_frame transport completion db_now int_of_str websocket user_id peer_id
       raw w = (result, w') →
     messages w' = messages w ∨
     ∃ msg original outgoing rephrased,
       messages w' = messages w ++ [msg] ∧
       original_text msg = Some original ∧ original ≠ "" ∧
       outgoing_text msg = Some outgoing ∧ outgoing ≠ "" ∧
       rephrased_text msg = Some rephrased ∧ rephrased ≠ "").
Proof.
  split.
  - intros content instruction w Hne.
    destruct (rewrite_run completion content instruction w)
      as (t & c & f & n & H & Ht).
    exists t, c, f, (set_api_calls n w). auto.
  - apply on_frame_persists.
Qed.

(** C5, as the code has it: a [send] frame whose text is not empty once
    trimmed and whose recipient id, one the storage can bind (a 64-bit
    integer), is not in storage makes one write, of
    [error{detail: "recipient_not_found"}], to the originating connection;
    no message is persisted, no completion is requested, the registry is
    not touched; and when that write goes through, the turn returns and
    the loop goes on with the next frame. *)
Theorem missing_recipient_error_only websocket user_id peer_id fields to
    recipient_id text w :
  assoc "type" fields = Some (JStr "send") →
  assoc "to" fields = Some to →
  py_int int_of_str to = Return recipient_id →
  or_empty_strip (assoc "text" fields) = Return text →
  text ≠ "" →
  in_int64 recipient_id →
  users w !! recipient_id = None →
  let raw := Document (JObj fields) in
  let reply := ErrorFrame "recipient_not_found" None in
  ∃ result w' e,
    on_frame transport completion db_now int_of_str websocket user_id peer_id
      raw w = (result, w') ∧
    wire w' = wire w ++ [e] ∧
    event_conn e = websocket ∧ event_payload e = reply ∧
    messages w' = messages w ∧ api_calls w' = api_calls w ∧
    active w' = active w ∧ users w' = users w ∧
    (transport (wire w) websocket reply = None →
     e = Delivered websocket reply ∧ result = Return peer_id ∧
     ∀ rest,
       receive_loop transport completion db_now int_of_str websocket user_id
         peer_id (raw :: rest) w
       = receive_loop transport completion db_now int_of_str websocket user_id
           peer_id rest w').
Proof.
  intros Htype Hto Hint Htext Hne Hrid Hrec raw reply.
  pose proof (on_frame_send websocket user_id peer_id _ _ _ _ w
                Htype Hto Hint Htext) as Hrun.
  apply truthy_true in Hne. rewrite Hne in Hrun.
  unfold bind in Hrun.
  rewrite (relay_no_recipient _ _ _ _ _ Hrid Hrec) in Hrun.
  fold raw in Hrun. fold reply in Hrun.
  unfold send_json in Hrun.
  destruct (transport (wire w) websocket reply) as [e|] eqn:Ht.
  - eexists _, _, (WriteFailed websocket reply).
    split; [exact Hrun|]. by repeat split.
  - eexists _, _, (Delivered websocket reply).
    split; [exact Hrun|]. repeat split; try done.
    intros rest. simpl. unfold bind at 1. fold raw. by rewrite Hrun.
Qed.

(** C9, as the code has it: a frame that parses to a JSON object whose
    [type] is neither ["join"] nor ["send"] makes one write, of
    [error{detail: "unknown_type"}], to the connection it came from, and
    nothing else; when that write goes through, the turn returns and the
    loop goes on with the next frame. *)
Theorem unknown_type_error_reply websocket user_id peer_id fields w :
  is_str (assoc "type" fields) "join" = false →
  is_str (assoc "type" fields) "send" = false →
  let raw := Document (JObj fields) in
  let reply := ErrorFrame "unknown_type" None in
  ∃ result w' e,
    on_frame transport completion db_now int_of_str websocket user_id peer_id
      raw w = (result, w') ∧
    wire w' = wire w ++ [e] ∧
    event_conn e = websocket ∧ event_payload e = reply ∧
    messages w' = messages w ∧ active w' = active w ∧
    (transport (wire w) websocket reply = None →
     e = Delivered websocket reply ∧ result = Return peer_id ∧
     ∀ rest,
       receive_loop transport completion db_now int_of_str websocket user_id
         peer_id (raw :: rest) w
       = receive_loop transport completion db_now int_of_str websocket user_id
           peer_id rest w').
Proof.
  intros Hjoin Hsend raw reply.
  assert (on_frame transport completion db_now int_of_str websocket user_id
            peer_id raw w
          = (send_json transport websocket reply ;; ret peer_id) w) as Hrun.
  { unfold on_frame, bind at 1 2, lift. simpl. rewrite Hjoin.
    unfold bind at 1. simpl. by rewrite Hsend. }
  unfold bind, send_json in Hrun.
  destruct (transport (wire w) websocket reply) as [e|] eqn:Ht.
  - eexists _, _, (WriteFailed websocket reply).
    split; [exact Hrun|]. by repeat split.
  - eexists _, _, (Delivered websocket reply).
    split; [exact Hrun|]. repeat split; try done.
    intros rest. simpl. unfold bind at 1. fold raw. by rewrite Hrun.
Qed.

End Loop.

(** ** The scenario, run *)

Import Scenario.



(** The turn of the witness, evaluated: alice's socket gets her own formal wording
    with [mine = True], bob's socket gets the pirate wording with
    [mine = False], under one message id. *)
Example alice_to_bob :
  ∃ w',
    on_frame reliable service clock no_int 10%nat 1 None
      (send_frame 2 "hey what's up") start = (Return None, w') ∧
    wire w' =
      [Delivered 10%nat
         (ChatMessage 1 1 2 "Good day to you." "Arr, good day to ye!"
            "hey what's up" "Good day to you." true);
       Delivered 20%nat
         (ChatMessage 1 1 2 "Arr, good day to ye!" "Arr, good day to ye!"
            "hey what's up" "Good day to you." false)] ∧
    rephrased_text <$> messages w' = [Some "Arr, good day to ye!"].
Proof. eexists. split; [vm_compute; reflexivity|]. by split. Qed.

Lemma persisted_texts_non_empty_witness :
  ∃ result w',
    on_frame reliable service clock no_int 10%nat 1 None
      (send_frame 2 "hey what's up") start = (result, w') ∧
    (messages w' = messages start ∨
     ∃ msg original outgoing rephrased,
       messages w' = messages start ++ [msg] ∧
       original_text msg = Some original ∧ original ≠ "" ∧
       outgoing_text msg = Some outgoing ∧ outgoing ≠ "" ∧
       rephrased_text msg = Some rephrased ∧ rephrased ≠ "").
Proof.
  pose (run := on_frame reliable service clock no_int 10%nat 1 None
                 (send_frame 2 "hey what's up") start).
  exists run.1, run.2. split; [apply surjective_pairing|].
  apply (proj2 (persisted_texts_non_empty reliable service clock no_int)
           10%nat 1 None (send_frame 2 "hey what's up") start run.1 run.2).
  apply surjective_pairing.
Defined.

Lemma missing_recipient_error_only_witness :
  ∃ w',
    on_frame reliable service clock no_int 10%nat 1 None
      (send_frame 99 "hello") start = (Return None, w') ∧
    wire w' = [Delivered 10%nat (ErrorFrame "recipient_not_found" None)] ∧
    messages w' = [].
Proof.
  destruct (missing_recipient_error_only reliable service clock no_int
              10%nat 1 None
              [("type", JStr "send"); ("to", JInt 99); ("text", JStr "hello")]
              (JInt 99) 99 "hello" start
              eq_refl eq_refl eq_refl eq_refl)
    as (result & w' & e & Hrun & Hwire & _ & _ & Hmsgs & _ & _ & _ & Hok);
    [discriminate | unfold in_int64; lia | reflexivity |].
  destruct (Hok eq_refl) as (-> & -> & _).
  exists w'. split; [exact Hrun|]. split; [exact Hwire | exact Hmsgs].
Defined.

(** C5, against the claim as stated: a [send] frame to a recipient that is
    not in storage, with a text that is blank, is dropped by the guard on
    the trimmed text before the recipient is looked up; nothing is written
    to the originating connection. *)
Lemma blank_send_to_missing_recipient_is_silent :
  users start !! 99 = None ∧
  ∃ w',
    on_frame reliable service clock no_int 10%nat 1 None
      (send_frame 99 "   ") start = (Return None, w') ∧
    wire w' = [].
Proof. split; [reflexivity|]. eexists. split; [vm_compute; reflexivity|done]. Qed.

(** A recipient id the storage cannot bind is not answered either:
    [db.get] raises, and the exception leaves the turn. *)
Example send_to_unbindable_recipient :
  on_frame reliable service clock no_int 10%nat 1 None
    (send_frame (2 ^ 63) "hello") start
  = (Raise OverflowError, start).
Proof. vm_compute. reflexivity. Qed.

Lemma unknown_type_error_reply_witness :
  ∃ w',
    on_frame reliable service clock no_int 10%nat 1 None
      (Document (JObj [("type", JStr "ping")])) start = (Return None, w') ∧
    wire w' = [Delivered 10%nat (ErrorFrame "unknown_type" None)].
Proof.
  destruct (unknown_type_error_reply reliable service clock no_int
              10%nat 1 None [("type", JStr "ping")] start eq_refl eq_refl)
    as (result & w' & e & Hrun & Hwire & _ & _ & _ & _ & Hok).
  destruct (Hok eq_refl) as (-> & -> & _).
  exists w'. split; [exact Hrun | exact Hwire].
Defined.

(** C9, against the claim as stated: a frame that is not JSON is not
    answered. [json.loads] raises, the exception leaves the loop through
    [finally], the connection is unregistered, and the frame that follows
    is never read: the wire stays empty. *)
Lemma unparsable_frame_ends_loop :
  ws_endpoint reliable service clock no_int 10%nat 1
    [Garbage; Document (JObj [("type", JStr "ping")])]
    (mkWorld ∅ {[1 := alice]} [] [] 0)
  = (Raise JSONDecodeError, mkWorld {[1 := ∅]} {[1 := alice]} [] [] 0).
Proof. vm_compute. reflexivity. Qed.

(** Without the unparsable frame the same connection is answered, and
    ends when the client goes away. *)
Example unknown_type_then_disconnect :
  ws_endpoint reliable service clock no_int 10%nat 1
    [Document (JObj [("type", JStr "ping")])]
    (mkWorld ∅ {[1 := alice]} [] [] 0)
  = (Return tt,
     mkWorld {[1 := ∅]} {[1 := alice]} []
       [Delivered 10%nat (ErrorFrame "unknown_type" None)] 0).
Proof. vm_compute. reflexivity. Qed.

(** ** Conversation summaries *)

Section Summaries.

Import Crud.

#[local] Instance newest_first_trans : Transitive newest_first.
Proof. unfold newest_first. intros a b c ? ?. lia. Qed.

#[local] Instance newest_first_total : Total newest_first.
Proof. unfold newest_first. intros a b. lia. Qed.

Lemma or_else_chain a b c :
  or_else a (or_else b (or_else c "")) = first_non_empty [a; b; c].
Proof.
  unfold first_non_empty.
  destruct a as [[|ca sa]|], b as [[|cb sb]|], c as [[|cc sc]|]; reflexivity.
Qed.

Lemma bool_filter_filter {A} (f : A → bool) (P : A → Prop)
    `{∀ x, Decision (P x)} (l : list A) :
  (∀ x, f x = true ↔ P x) → List.filter f l = filter P l.
Proof.
  intros Hf. induction l as [|x l IH]; [done|]. simpl.
  rewrite filter_cons. destruct (f x) eqn:Hx.
  - rewrite decide_True by (by apply Hf). by rewrite IH.
  - rewrite decide_False; [done|]. rewrite <- Hf. congruence.
Qed.

(** The rows the loop scans are the messages of the viewer, newest
    first. *)
Lemma select_messages_desc_spec viewer messages :
  select_messages_desc viewer messages
    ≡ₚ filter (λ m, sender_id m = viewer ∨ recipient_id m = viewer) messages ∧
  StronglySorted newest_first (select_messages_desc viewer messages).
Proof.
  unfold select_messages_desc. split.
  - rewrite merge_sort_Permutation.
    rewrite (bool_filter_filter _
               (λ m, sender_id m = viewer ∨ recipient_id m = viewer)); [done|].
    intros m. rewrite orb_true_iff, !Z.eqb_eq. done.
  - apply StronglySorted_merge_sort; apply _.
Qed.

(** One step of the scan, seen from a peer. *)
Lemma scan_lookup viewer summaries msg peer :
  scan viewer summaries msg !! peer =
    (λ s,
       if is_not_none (last_message_id s) then s
       else if bool_decide (peer_of viewer msg = peer)
            then mkSummary (peer_id s) (peer_nickname s) (Some (msg_id msg))
                   (Some (sender_id msg)) (Some (display_text viewer msg))
                   (Some (timestamp msg))
            else s) <$> summaries !! peer.
Proof.
  unfold scan, peer_of.
  destruct (Z.eqb_spec (sender_id msg) viewer) as [Heq|Hne].
  - rewrite (decide_True _ _ Heq).
    destruct (summaries !! recipient_id msg) as [s|] eqn:Hs.
    + destruct (is_not_none (last_message_id s)) eqn:Hlast.
      * destruct (summaries !! peer) as [s'|] eqn:Hs'; [|done]. simpl.
        destruct (is_not_none (last_message_id s')) eqn:Hlast'; [done|].
        case_bool_decide as Hp; [|done]. congruence.
      * rewrite lookup_insert. case_bool_decide as Hp.
        -- rewrite decide_True by done. subst peer. rewrite Hs. simpl.
           rewrite Hlast, or_else_chain. unfold display_text.
           by rewrite decide_True.
        -- rewrite decide_False by done.
           destruct (summaries !! peer) as [s'|]; [|done]. simpl.
           by destruct (is_not_none (last_message_id s')).
    + destruct (summaries !! peer) as [s'|] eqn:Hs'; [|done]. simpl.
      destruct (is_not_none (last_message_id s')); [done|].
      case_bool_decide as Hp; [|done]. congruence.
  - rewrite (decide_False _ _ Hne).
    destruct (summaries !! sender_id msg) as [s|] eqn:Hs.
    + destruct (is_not_none (last_message_id s)) eqn:Hlast.
      * destruct (summaries !! peer) as [s'|] eqn:Hs'; [|done]. simpl.
        destruct (is_not_none (last_message_id s')) eqn:Hlast'; [done|].
        case_bool_decide as Hp; [|done]. congruence.
      * rewrite lookup_insert. case_bool_decide as Hp.
        -- rewrite decide_True by done. subst peer. rewrite Hs. simpl.
           rewrite Hlast, or_else_chain. unfold display_text.
           by rewrite decide_False.
        -- rewrite decide_False by done.
           destruct (summaries !! peer) as [s'|]; [|done]. simpl.
           by destruct (is_not_none (last_message_id s')).
    + destruct (summaries !! peer) as [s'|] eqn:Hs'; [|done]. simpl.
      destruct (is_not_none (last_message_id s')); [done|].
      case_bool_decide as Hp; [|done]. congruence.
Qed.

(** The whole scan, seen from a peer: a summary that is still blank takes
    the first row exchanged with the peer. *)
Lemma foldl_scan_lookup viewer rows : ∀ summaries peer,
  foldl (scan viewer) summaries rows !! peer =
    (λ s,
       if is_not_none (last_message_id s) then s
       else match List.find (λ m, bool_decide (peer_of viewer m = peer)) rows with
            | Some m =>
                mkSummary (peer_id s) (peer_nickname s) (Some (msg_id m))
                  (Some (sender_id m)) (Some (display_text viewer m))
                  (Some (timestamp m))
            | None => s
            end) <$> summaries !! peer.
Proof.
  induction rows as [|m rows IH]; intros summaries peer; simpl.
  - destruct (summaries !! peer) as [s|]; [|done]. simpl.
    by destruct (is_not_none _).
  - rewrite IH, scan_lookup.
    destruct (summaries !! peer) as [s|]; [|done]. simpl. f_equal.
    destruct (is_not_none (last_message_id s)) eqn:Hlast.
    + by rewrite Hlast.
    + case_bool_decide; [done|]. by rewrite Hlast.
Qed.


End Summaries.

(** The example of the specification: A sends to B at [t1], B answers at
    [t2 > t1]; the summary of B for A shows the answer, with the text A
    reads as a recipient. *)
Example aggregate_latest_reply :
  let m1 := mkMessage 1 1 2 (Some "hi") (Some "Hello.") (Some "Ahoy!")
              (Some "pirate") (Some "formal") 100 in
  let m2 := mkMessage 2 2 1 (Some "yo") (Some "Yo!") (Some "Good day.")
              (Some "formal") (Some "") 200 in
  Crud.get_conversation_summaries
    {[1 := Scenario.alice; 2 := Scenario.bob]} [m1; m2] 1 !! 2
  = Some (Crud.mkSummary 2 "bob" (Some 2) (Some 2) (Some "Good day.") (Some 200)).
Proof. vm_compute. reflexivity. Qed.

(** ** Presence tracker *)

Section PresenceFacts.

Import Presence.

Lemma ltb_lt x y : ltb x y = true ↔ (x < y)%Q.
Proof.
  unfold ltb. rewrite negb_true_iff, <- not_true_iff_false, Qle_bool_iff.
  split; [apply Qnot_le_lt | apply Qlt_not_le].
Qed.

Lemma truthy_nonzero ts : truthy ts = true ↔ ¬ (ts == 0)%Q.
Proof.
  unfold truthy. by rewrite negb_true_iff, <- not_true_iff_false, Qeq_bool_iff.
Qed.

(** What [_is_online] computes: an entry, younger than the timeout, whose
    timestamp is not zero. It returns a boolean and has no access to the
    dict other than the lookup. *)
Lemma is_online_iff user_id now (presence : gmap Z Q) :
  _is_online user_id now presence = true ↔
  ∃ ts, presence !! user_id = Some ts ∧ ¬ (ts == 0)%Q ∧
        (now - ts < PRESENCE_TIMEOUT_SEC)%Q.
Proof.
  unfold _is_online. destruct (presence !! user_id) as [ts|].
  - destruct (truthy ts) eqn:Hts.
    + rewrite ltb_lt. apply truthy_nonzero in Hts. split.
      * intros Hlt. by exists ts.
      * by intros (ts' & [= <-] & _ & Hlt).
    + split; [done|]. intros (ts' & [= <-] & Hnz & _).
      apply truthy_nonzero in Hnz. congruence.
  - split; [done|]. by intros (ts & ? & _).
Qed.

Lemma lookup_foldl_delete (l : list Z) : ∀ (m : gmap Z Q) k,
  foldl (λ m uid, delete uid m) m l !! k
  = if decide (k ∈ l) then None else m !! k.
Proof.
  induction l as [|x l IH]; intros m k; cbn [foldl].
  - rewrite decide_False; [done|]. by intros ?%elem_of_nil.
  - rewrite IH. destruct (decide (k ∈ l)) as [Hin|Hout].
    + rewrite decide_True; [done|]. by right.
    + destruct (decide (k = x)) as [->|Hne].
      * rewrite lookup_delete_eq, decide_True; [done|]. by left.
      * rewrite lookup_delete_ne by done.
        rewrite decide_False; [done|]. by intros [?|?]%elem_of_cons.
Qed.

(** [_prune_presence] removes the entries as old as the timeout or older,
    and only those. *)
Lemma prune_lookup now (presence : gmap Z Q) k :
  _prune_presence now presence !! k =
    match presence !! k with
    | Some ts => if geb (now - ts)%Q PRESENCE_TIMEOUT_SEC then None else Some ts
    | None => None
    end.
Proof.
  unfold _prune_presence. rewrite lookup_foldl_delete.
  set (stale := List.filter _ _).
  destruct (presence !! k) as [ts|] eqn:Hk.
  - destruct (geb (now - ts)%Q PRESENCE_TIMEOUT_SEC) eqn:Hold.
    + rewrite decide_True; [done|].
      apply list_elem_of_fmap. exists (k, ts). split; [done|].
      apply list_elem_of_In, filter_In. split; [|done].
      by apply list_elem_of_In, elem_of_map_to_list.
    + rewrite decide_False; [done|].
      intros ([k' ts'] & -> & Hin)%list_elem_of_fmap.
      apply list_elem_of_In, filter_In in Hin as [Hin Hold'].
      apply list_elem_of_In, elem_of_map_to_list in Hin. simpl in *. congruence.
  - rewrite decide_False; [done|].
    intros ([k' ts'] & -> & Hin)%list_elem_of_fmap.
    apply list_elem_of_In, filter_In in Hin as [Hin _].
    apply list_elem_of_In, elem_of_map_to_list in Hin. simpl in *. congruence.
Qed.

(** A ping at a time that is not zero: the user is online at once, and
    offline sixteen seconds later. *)
Lemma ping_then_online user_id now (presence : gmap Z Q) :
  ¬ (now == 0)%Q →
  _is_online user_id now (presence_ping user_id now presence) = true.
Proof.
  intros Hnz. apply is_online_iff. exists now.
  split; [|split; [done|]].
  - unfold presence_ping. rewrite prune_lookup, lookup_insert_eq.
    assert (geb (now - now)%Q PRESENCE_TIMEOUT_SEC = false) as ->; [|done].
    unfold geb. apply not_true_iff_false. rewrite Qle_bool_iff.
    unfold PRESENCE_TIMEOUT_SEC. lra.
  - unfold PRESENCE_TIMEOUT_SEC. lra.
Qed.

Lemma ping_then_offline_after_16s user_id now (presence : gmap Z Q) :
  _is_online user_id (now + 16)%Q (presence_ping user_id now presence) = false.
Proof.
  apply not_true_iff_false. rewrite is_online_iff.
  intros (ts & Hts & _ & Hlt).
  unfold presence_ping in Hts. rewrite prune_lookup, lookup_insert_eq in Hts.
  destruct (geb _ _); [done|]. injection Hts as <-.
  unfold PRESENCE_TIMEOUT_SEC in Hlt. lra.
Qed.

(** The dicts the handlers build hold no zero timestamp: the dict starts
    empty, a ping writes the clock, and pruning only removes. *)
Lemma nonzero_timestamps_empty : nonzero_timestamps ∅.
Proof. intros k ts Hk. by rewrite lookup_empty in Hk. Qed.

Lemma nonzero_timestamps_prune now (presence : gmap Z Q) :
  nonzero_timestamps presence →
  nonzero_timestamps (_prune_presence now presence).
Proof.
  intros Hinv k ts. rewrite prune_lookup.
  destruct (presence !! k) as [ts'|] eqn:Hk; [|done].
  destruct (geb _ _); [done|]. intros [= <-]. by apply (Hinv k).
Qed.

Lemma nonzero_timestamps_ping user_id now (presence : gmap Z Q) :
  ¬ (now == 0)%Q →
  nonzero_timestamps presence →
  nonzero_timestamps (presence_ping user_id now presence).
Proof.
  intros Hnow Hinv. apply nonzero_timestamps_prune. intros k ts.
  destruct (decide (k = user_id)) as [->|Hk].
  - rewrite lookup_insert_eq. by intros [= <-].
  - rewrite lookup_insert_ne by done. apply Hinv.
Qed.

(** C8: on a dict with no zero timestamp, which is what the handlers
    keep ([presence] starts empty, [presence_ping] writes [time.time()]
    and [_prune_presence] only removes), [_is_online user_id now] is
    true exactly when the user has an entry and [now] minus its
    timestamp is below the 15 seconds; it is a function of the dict and
    removes nothing; a ping at [t] read at [t] is online, read at
    [t + 16] it is not; and the ping and the pruning hand on a dict with
    no zero timestamp. *)
Theorem is_online_fresh_entry user_id now (presence : gmap Z Q) :
  nonzero_timestamps presence →
  (_is_online user_id now presence = true ↔
   ∃ ts, presence !! user_id = Some ts ∧
         (now - ts < PRESENCE_TIMEOUT_SEC)%Q) ∧
  nonzero_timestamps (_prune_presence now presence) ∧
  ∀ t, ¬ (t == 0)%Q →
    nonzero_timestamps (presence_ping user_id t presence) ∧
    _is_online user_id t (presence_ping user_id t presence) = true ∧
    _is_online user_id (t + 16)%Q (presence_ping user_id t presence) = false.
Proof.
  intros Hinv. split; [|split].
  - rewrite is_online_iff. split.
    + intros (ts & Hts & _ & Hlt). by exists ts.
    + intros (ts & Hts & Hlt). exists ts. split; [done|].
      split; [by apply (Hinv user_id)|done].
  - by apply nonzero_timestamps_prune.
  - intros t Ht. split; [by apply nonzero_timestamps_ping|].
    split; [by apply ping_then_online|apply ping_then_offline_after_16s].
Qed.

(** Where the float zero would show: an entry whose timestamp is [0.0]
    is one second old at [now = 1.0] and [_is_online] answers [False],
    because [ts and ...] takes the float zero for a missing entry, while
    [_prune_presence] keeps the entry as fresh. No handler writes such
    an entry while the clock is not at the epoch. *)
Example zero_timestamp_reads_offline :
  ({[1 := 0%Q]} : gmap Z Q) !! 1 = Some 0%Q ∧
  (1 - 0 < PRESENCE_TIMEOUT_SEC)%Q ∧
  _is_online 1 1 {[1 := 0%Q]} = false ∧
  _prune_presence 1 {[1 := 0%Q]} !! 1 = Some 0%Q.
Proof. repeat split; reflexivity. Qed.

End PresenceFacts.

Lemma is_online_fresh_entry_witness :
  nonzero_timestamps {[1 := 100%Q]} ∧
  Presence._is_online 1 105 {[1 := 100%Q]} = true ∧
  Presence._is_online 1 216
    (Presence.presence_ping 1 200 {[1 := 100%Q]}) = false.
Proof.
  assert (nonzero_timestamps {[1 := 100%Q]}) as Hinv.
  { intros k ts [_ <-]%lookup_singleton_Some. discriminate. }
  destruct (is_online_fresh_entry 1 105 {[1 := 100%Q]} Hinv)
    as (Hiff & _ & Hping).
  split; [exact Hinv|]. split.
  - apply Hiff. exists 100%Q. split; reflexivity.
  - destruct (Hping 200%Q) as (_ & _ & Hoff); [discriminate|exact Hoff].
Defined.

(** * Further properties of the code *)

(** ** Registry: join, leave, fanout *)

Section RegistryMore.

Context (transport : list wire_event → conn → payload → option exn).

Lemma registered_set_wire user_id l w :
  registered user_id (set_wire l w) = registered user_id w.
Proof. done. Qed.

(** [disconnect] takes the connection, and nothing else, out of the set
    of the user; the sets of the other users, the tables and the wire stay
    as they are, and nothing is raised. *)
Theorem disconnect_removes_only user_id websocket w :
  ∃ w',
    disconnect user_id websocket w = (Return tt, w') ∧
    registered user_id w' = registered user_id w ∖ {[websocket]} ∧
    (∀ k, k ≠ user_id → active w' !! k = active w !! k) ∧
    users w' = users w ∧ messages w' = messages w ∧
    wire w' = wire w ∧ api_calls w' = api_calls w.
Proof.
  eexists. split; [apply disconnect_run|]. simpl.
  split; [|split; [|done]].
  - unfold registered. simpl. rewrite lookup_alter_eq.
    destruct (active w !! user_id) as [s|]; simpl; [done|].
    apply set_eq. intros x. rewrite elem_of_difference.
    split; [by intros ?%not_elem_of_empty | by intros [?%not_elem_of_empty _]].
  - intros k Hk. by rewrite lookup_alter_ne.
Qed.

(** Join, then fanout: the payload is written to the connection that just
    joined and to the connections the user already had, once each, and to
    no other connection. *)
Theorem join_then_fanout user_id websocket p w :
  ∃ w1 w2 evs,
    connect user_id websocket w = (Return tt, w1) ∧
    send_to_user transport user_id p w1 = (Return tt, w2) ∧
    wire w2 = wire w ++ evs ∧
    (∀ e, e ∈ evs → event_payload e = p) ∧
    NoDup (event_conn <$> evs) ∧
    (∀ ws, ws ∈ event_conn <$> evs ↔
           ws = websocket ∨ ws ∈ registered user_id w).
Proof.
  eexists _. 
  destruct (send_to_user_run transport user_id p
              (set_active
                 (<[user_id := default ∅ (active w !! user_id) ∪ {[websocket]}]>
                    (active w)) w))
    as (w2 & evs & Hrun & Hfo).
  exists w2, evs. split; [reflexivity|]. split; [exact Hrun|].
  split; [apply Hfo|]. split; [apply Hfo|].
  rewrite (fo_targets _ _ _ _ _ _ Hfo).
  split; [apply NoDup_elements|].
  intros ws. rewrite elem_of_elements. unfold registered. simpl.
  rewrite lookup_insert_eq. simpl.
  rewrite elem_of_union, elem_of_singleton. tauto.
Qed.

(** A fanout to a user with no connection, registered with an empty set
    or not at all, does nothing and raises nothing. *)
Theorem send_to_user_nobody user_id p w :
  registered user_id w = ∅ →
  send_to_user transport user_id p w = (Return tt, w).
Proof.
  unfold registered, send_to_user, bind, gets. simpl.
  destruct (active w !! user_id) as [s|]; simpl.
  - intros ->. by rewrite elements_empty.
  - done.
Qed.

Lemma reliable_loop user_id p targets :
  (∀ l ws, transport l ws p = None) →
  ∀ w, for_each targets (deliver transport user_id p) w
       = (Return tt, set_wire (wire w ++ ((λ ws, Delivered ws p) <$> targets)) w).
Proof.
  intros Hok. induction targets as [|ws targets IH]; intros w; simpl.
  - unfold ret. rewrite app_nil_r. by destruct w.
  - unfold bind. rewrite deliver_run, Hok, IH. simpl.
    by rewrite <- app_assoc.
Qed.

(** When no write of the payload fails, [send_to_user] delivers it to
    every connection of the user, in the order of the snapshot, and
    changes nothing but the wire. *)
Theorem send_to_user_all_delivered user_id p w :
  (∀ l ws, transport l ws p = None) →
  send_to_user transport user_id p w =
    (Return tt,
     set_wire (wire w ++ ((λ ws, Delivered ws p)
                            <$> elements (registered user_id w))) w).
Proof.
  intros Hok. unfold send_to_user, registered, bind, gets. simpl.
  destruct (active w !! user_id) as [s|]; simpl.
  - by apply reliable_loop.
  - rewrite elements_empty. simpl. unfold ret. rewrite app_nil_r. by destruct w.
Qed.

End RegistryMore.

Lemma send_to_user_nobody_witness :
  send_to_user Scenario.reliable 3 (ErrorFrame "x" None) Scenario.start
  = (Return tt, Scenario.start).
Proof. apply send_to_user_nobody. reflexivity. Defined.

Lemma send_to_user_all_delivered_witness :
  send_to_user Scenario.reliable 1 (ErrorFrame "x" None) Scenario.start
  = (Return tt,
     set_wire (wire Scenario.start ++
               ((λ ws, Delivered ws (ErrorFrame "x" None))
                  <$> elements (registered 1 Scenario.start)))
       Scenario.start).
Proof. apply send_to_user_all_delivered. reflexivity. Defined.

(** ** The lifetime of a connection *)

Section Lifetime.

Context (transport : list wire_event → conn → payload → option exn).
Context (completion : nat → string → string → api_result).
Context (db_now : list Message → Z).
Context (int_of_str : string → option Z).

Lemma evolves_refl w : evolves w w.
Proof. by split. Qed.

Lemma evolves_trans w1 w2 w3 : evolves w1 w2 → evolves w2 w3 → evolves w1 w3.
Proof.
  intros [Hu1 Hr1 Hm1 Hi1 Hw1] [Hu2 Hr2 Hm2 Hi2 Hw2]. split.
  - congruence.
  - intros k. etrans; [apply Hr2 | apply Hr1].
  - by etrans.
  - auto.
  - by etrans.
Qed.

Lemma next_message_id_fresh ms : next_message_id ms ∉ msg_id <$> ms.
Proof.
  unfold next_message_id.
  assert (∀ i, i ∈ msg_id <$> ms → i ≤ foldr Z.max 0 (msg_id <$> ms)) as Hmax.
  { induction (msg_id <$> ms) as [|x l IH]; intros i Hi.
    - by apply elem_of_nil in Hi.
    - simpl. apply elem_of_cons in Hi as [->|Hi]; [lia|].
      specialize (IH i Hi). lia. }
  intros Hin. specialize (Hmax _ Hin). lia.
Qed.

Lemma send_json_evolves ws p w r w' :
  send_json transport ws p w = (r, w') → evolves w w'.
Proof.
  unfold send_json. destruct (transport _ _ _); intros [= <- <-];
    (split; simpl; [done|done|done|done|by eexists]).
Qed.

Lemma fanned_out_evolves user_id p targets evs w w' :
  fanned_out user_id p targets evs w w' → evolves w w'.
Proof.
  intros Hfo. pose proof (fanned_out_registered _ _ _ _ _ _ Hfo) as Hreg.
  destruct Hfo as [Hw Hu Hm _ _ _ Ho _ _]. split.
  - done.
  - intros k ws. destruct (decide (k = user_id)) as [->|Hk].
    + rewrite Hreg. tauto.
    + unfold registered. by rewrite (Ho k Hk).
  - by rewrite Hm.
  - by rewrite Hm.
  - rewrite Hw. by eexists.
Qed.

Lemma relay_evolves websocket sender_id recipient_id text w r w' :
  relay transport completion db_now websocket sender_id recipient_id text w
    = (r, w') →
  evolves w w'.
Proof.
  destruct (relay_lookups transport completion db_now websocket
              sender_id recipient_id text w)
    as [->|[[Hrid Hrec]|(Hsid & Hrid & recipient & Hrec)]].
  { intros [= <- <-]. apply evolves_refl. }
  2: destruct (relay_run transport completion db_now int_of_str websocket
                sender_id recipient_id text w recipient Hsid Hrid Hrec)
      as (o & c1 & f1 & n1 & fin & c2 & f2 & n2 & _ & _ & _ & Hrelay).
  2: destruct (if f1 || f2 then _ else None) as [e|].
  - rewrite (relay_no_recipient transport completion db_now
               websocket sender_id recipient_id text w Hrid Hrec).
    apply send_json_evolves.
  - rewrite Hrelay. intros [= <- <-].
    split; simpl; [done|done|done|done|by eexists].
  - destruct Hrelay as (evs_s & evs_r & w2 & w'' & -> & Hfs & Hfr).
    intros [= <- <-].
    eapply evolves_trans; [|eapply evolves_trans;
      [apply (fanned_out_evolves _ _ _ _ _ _ Hfs)
      |apply (fanned_out_evolves _ _ _ _ _ _ Hfr)]].
    split; simpl; [done|done|by eexists| |by eexists].
    intros Hnd. rewrite fmap_app. simpl.
    apply NoDup_app. split; [done|]. split; [|apply NoDup_singleton].
    intros i Hi ->%list_elem_of_singleton.
    by apply next_message_id_fresh in Hi.
Qed.

(** A turn of the loop, whatever the frame and however it ends. *)
Lemma on_frame_evolves websocket user_id peer_id raw w r w' :
  on_frame transport completion db_now int_of_str websocket user_id peer_id raw w
    = (r, w') →
  evolves w w'.
Proof.
  destruct raw as [|data].
  { unfold on_frame, bind, lift. simpl. intros [= <- <-]. apply evolves_refl. }
  destruct data as [| | | | | |fields];
    try (unfold on_frame, bind, lift; simpl; intros [= <- <-];
         apply evolves_refl).
  unfold on_frame, bind at 1 2, lift. simpl.
  destruct (is_str (assoc "type" fields) "join").
  { unfold bind at 1. simpl. unfold bind at 1.
    destruct (py_int _ _) as [n|e]; [|intros [= <- <-]; apply evolves_refl].
    unfold bind, ret.
    destruct (send_json _ _ _ _) as [[[]|e] w1] eqn:Hs;
      intros [= <- <-]; by apply send_json_evolves in Hs. }
  unfold bind at 1. simpl.
  destruct (is_str (assoc "type" fields) "send").
  2: { unfold bind, ret.
       destruct (send_json _ _ _ _) as [[[]|e] w1] eqn:Hs;
         intros [= <- <-]; by apply send_json_evolves in Hs. }
  unfold bind at 1. simpl.
  destruct (assoc "to" fields) as [to|]; [|intros [= <- <-]; apply evolves_refl].
  unfold bind at 1.
  destruct (py_int _ to) as [recipient_id|e];
    [|intros [= <- <-]; apply evolves_refl].
  unfold bind at 1. unfold bind at 1.
  destruct (or_empty_strip _) as [text|e];
    [|intros [= <- <-]; apply evolves_refl].
  destruct (PyStr.truthy text); simpl; [|intros [= <- <-]; apply evolves_refl].
  unfold bind, ret.
  destruct (relay _ _ _ _ _ _ _ _) as [[[]|e] w1] eqn:Hrelay;
    intros [= <- <-]; by apply relay_evolves in Hrelay.
Qed.

Lemma receive_loop_evolves websocket user_id inbox : ∀ peer_id w r w',
  receive_loop transport completion db_now int_of_str websocket user_id
    peer_id inbox w = (r, w') →
  evolves w w' ∧ ∃ e, r = Raise e.
Proof.
  induction inbox as [|raw inbox IH]; intros peer_id w r w'; simpl.
  - intros [= <- <-]. split; [apply evolves_refl | by eexists].
  - unfold bind.
    destruct (on_frame _ _ _ _ _ _ _ _ _) as [[p|e] w1] eqn:Hturn.
    + intros Hrest. apply IH in Hrest as [Hev Hraise].
      split; [|done].
      eapply evolves_trans; [by eapply on_frame_evolves | done].
    + intros [= <- <-]. split; [by eapply on_frame_evolves | by eexists].
Qed.

Lemma ws_endpoint_run websocket user_id inbox w r w' :
  ws_endpoint transport completion db_now int_of_str websocket user_id inbox w
    = (r, w') →
  ∃ w2,
    evolves
      (set_active
         (<[user_id := default ∅ (active w !! user_id) ∪ {[websocket]}]>
            (active w)) w) w2 ∧
    w' = set_active (alter (λ s, s ∖ {[websocket]}) user_id (active w2)) w2 ∧
    r ≠ Raise WebSocketDisconnect.
Proof.
  unfold ws_endpoint, bind, connect, modify, try_finally, except_disconnect.
  destruct (receive_loop _ _ _ _ _ _ _ _ _) as [r1 w2] eqn:Hloop.
  apply receive_loop_evolves in Hloop as [Hev [e ->]].
  intros Hrun. exists w2. split; [done|].
  destruct e; rewrite disconnect_run in Hrun; injection Hrun as <- <-;
    by split.
Qed.

(** However the loop ends (the client goes away, a frame cannot be
    handled, a write to the client fails), the connection is out of the
    registry when [ws_endpoint] is over, and no other connection was
    added: every set of the registry is within what it was at the start.
    [WebSocketDisconnect] never leaves the endpoint. *)
Theorem ws_endpoint_cleanup websocket user_id inbox w r w' :
  ws_endpoint transport completion db_now int_of_str websocket user_id inbox w
    = (r, w') →
  (websocket ∉ registered user_id w') ∧
  (∀ k, registered k w' ⊆ registered k w) ∧
  r ≠ Raise WebSocketDisconnect.
Proof.
  intros (w2 & Hev & -> & Hr)%ws_endpoint_run.
  split; [|split; [|done]].
  - unfold registered. simpl. rewrite lookup_alter_eq.
    destruct (active w2 !! user_id); simpl.
    + rewrite elem_of_difference, elem_of_singleton. tauto.
    + apply not_elem_of_empty.
  - intros k ws Hws.
    pose proof (ev_registry _ _ Hev k) as Hsub.
    unfold registered in *. simpl in *.
    destruct (decide (k = user_id)) as [->|Hk].
    + rewrite lookup_alter_eq in Hws. rewrite lookup_insert_eq in Hsub.
      simpl in Hsub.
      destruct (active w2 !! user_id) as [s|]; simpl in *;
        [|by apply not_elem_of_empty in Hws].
      apply elem_of_difference in Hws as [Hws Hne].
      specialize (Hsub ws Hws).
      rewrite elem_of_union, elem_of_singleton in Hsub.
      destruct Hsub as [?| ->]; [done|]. by rewrite elem_of_singleton in Hne.
    + rewrite lookup_alter_ne in Hws by done.
      rewrite lookup_insert_ne in Hsub by done. by apply Hsub.
Qed.

(** Over the whole life of a connection the [users] table is not written,
    the [messages] table and the wire are only appended to, and message
    ids that were distinct stay distinct. *)
Theorem ws_endpoint_storage websocket user_id inbox w r w' :
  ws_endpoint transport completion db_now int_of_str websocket user_id inbox w
    = (r, w') →
  users w' = users w ∧
  (messages w `prefix_of` messages w') ∧
  (NoDup (msg_id <$> messages w) → NoDup (msg_id <$> messages w')) ∧
  (wire w `prefix_of` wire w').
Proof.
  intros (w2 & [Hu Hreg Hm Hi Hw] & -> & Hr)%ws_endpoint_run.
  simpl in *. auto.
Qed.

End Lifetime.

Lemma ws_endpoint_cleanup_witness :
  ∃ r w',
    ws_endpoint Scenario.reliable Scenario.service Scenario.clock
      Scenario.no_int 11%nat 1 [Garbage] Scenario.start = (r, w') ∧
    (11%nat ∉ registered 1 w') ∧ (registered 1 w' ⊆ registered 1 Scenario.start).
Proof.
  eexists _, _. split; [vm_compute; reflexivity|].
  destruct (ws_endpoint_cleanup Scenario.reliable Scenario.service
              Scenario.clock Scenario.no_int 11%nat 1 [Garbage] Scenario.start
              _ _ eq_refl) as (Hout & Hsub & _).
  split; [exact Hout | exact (Hsub 1)].
Defined.

Lemma ws_endpoint_storage_witness :
  ∃ r w',
    ws_endpoint Scenario.reliable Scenario.service Scenario.clock
      Scenario.no_int 10%nat 1 [Scenario.send_frame 2 "hey"] Scenario.start
      = (r, w') ∧
    users w' = users Scenario.start ∧
    (messages Scenario.start `prefix_of` messages w').
Proof.
  eexists _, _. split; [vm_compute; reflexivity|].
  destruct (ws_endpoint_storage Scenario.reliable Scenario.service
              Scenario.clock Scenario.no_int 10%nat 1
              [Scenario.send_frame 2 "hey"] Scenario.start
              _ _ eq_refl) as (Hu & Hm & _).
  split; [exact Hu | exact Hm].
Defined.

(** ** Turns of the loop *)

Section Turns.

Context (transport : list wire_event → conn → payload → option exn).
Context (completion : nat → string → string → api_result).
Context (db_now : list Message → Z).
Context (int_of_str : string → option Z).

(** A [join] frame is answered with [joined{ok: true, peer_id}] on the
    connection it came from, where [peer_id] is [int] of the field, or 0
    when the frame has none; the peer is not looked up, and nothing else
    is written, persisted or requested. When the answer goes through, the
    turn returns that peer. *)
Theorem join_frame_reply websocket user_id peer_id fields n w :
  assoc "type" fields = Some (JStr "join") →
  py_int int_of_str (default (JInt 0) (assoc "peer_id" fields)) = Return n →
  ∃ r w' e,
    on_frame transport completion db_now int_of_str websocket user_id peer_id
      (Document (JObj fields)) w = (r, w') ∧
    wire w' = wire w ++ [e] ∧
    event_conn e = websocket ∧ event_payload e = Joined true n ∧
    messages w' = messages w ∧ api_calls w' = api_calls w ∧
    active w' = active w ∧ users w' = users w ∧
    (transport (wire w) websocket (Joined true n) = None →
     e = Delivered websocket (Joined true n) ∧ r = Return (Some n)).
Proof.
  intros Htype Hint.
  assert (on_frame transport completion db_now int_of_str websocket user_id
            peer_id (Document (JObj fields)) w
          = (send_json transport websocket (Joined true n) ;; ret (Some n)) w)
    as ->.
  { unfold on_frame, bind at 1 2, lift. simpl. rewrite Htype. simpl.
    unfold bind at 1. simpl. unfold bind at 1. by rewrite Hint. }
  unfold bind, send_json, ret.
  destruct (transport (wire w) websocket (Joined true n)) as [e|].
  - eexists _, _, (WriteFailed websocket (Joined true n)).
    split; [reflexivity|]. by repeat split.
  - eexists _, _, (Delivered websocket (Joined true n)).
    split; [reflexivity|]. by repeat split.
Qed.

(** The peer of the last [join] plays no part in a turn: with any two
    values of it, the same frame leaves the same state and raises the same
    exception, and a frame other than a [join] hands the value on as it
    is. A [send] is routed by its own [to] alone. *)
Theorem turn_ignores_joined_peer websocket user_id p1 p2 raw w :
  let run peer :=
    on_frame transport completion db_now int_of_str websocket user_id peer
      raw w in
  (run p1).2 = (run p2).2 ∧
  (∀ e, (run p1).1 = Raise e ↔ (run p2).1 = Raise e) ∧
  (∀ p, (run p1).1 = Return p → p = p1 ∨ (run p2).1 = Return p).
Proof.
  intros run. subst run. cbv beta.
  unfold on_frame, bind, lift, ret.
  repeat (case_match; simpl in *; simplify_eq);
    (split; [done|]); (split; [done|]);
    intros p [= <-]; auto.
Qed.

(** A [send] frame whose text is missing, null, empty or blank is
    dropped: the turn returns, and the state is what it was; no recipient
    is looked up and nothing is written. *)
Theorem blank_send_ignored websocket user_id peer_id fields to recipient_id w :
  assoc "type" fields = Some (JStr "send") →
  assoc "to" fields = Some to →
  py_int int_of_str to = Return recipient_id →
  or_empty_strip (assoc "text" fields) = Return "" →
  on_frame transport completion db_now int_of_str websocket user_id peer_id
    (Document (JObj fields)) w = (Return peer_id, w).
Proof.
  intros Htype Hto Hint Htext.
  by rewrite (on_frame_send _ _ _ _ _ _ _ _ _ _ _ _ Htype Hto Hint Htext).
Qed.

(** A [send] frame with no [to], or with a [to] that [int] refuses, ends
    the loop, even when its text is blank: the exception leaves the turn
    before anything is written, and the frames behind it are not read. *)
Theorem send_without_recipient_ends_loop websocket user_id peer_id fields e
    rest w :
  assoc "type" fields = Some (JStr "send") →
  match assoc "to" fields with
  | Some to => py_int int_of_str to
  | None => Raise KeyError
  end = Raise e →
  receive_loop transport completion db_now int_of_str websocket user_id peer_id
    (Document (JObj fields) :: rest) w = (Raise e, w).
Proof.
  intros Htype Hto. simpl. unfold bind at 1.
  assert (on_frame transport completion db_now int_of_str websocket user_id
            peer_id (Document (JObj fields)) w = (Raise e, w)) as ->; [|done].
  unfold on_frame, bind at 1 2, lift. simpl. rewrite Htype. simpl.
  unfold bind at 1. simpl. unfold bind at 1. simpl.
  destruct (assoc "to" fields) as [to|].
  - unfold bind at 1. by rewrite Hto.
  - by injection Hto as <-.
Qed.

End Turns.

Lemma join_frame_reply_witness :
  ∃ w',
    on_frame Scenario.reliable Scenario.service Scenario.clock Scenario.no_int
      10%nat 1 None (Document (JObj [("type", JStr "join")])) Scenario.start
    = (Return (Some 0), w') ∧
    wire w' = [Delivered 10%nat (Joined true 0)].
Proof.
  destruct (join_frame_reply Scenario.reliable Scenario.service Scenario.clock
              Scenario.no_int 10%nat 1 None [("type", JStr "join")] 0
              Scenario.start eq_refl eq_refl)
    as (r & w' & e & Hrun & Hwire & _ & _ & _ & _ & _ & _ & Hok).
  destruct (Hok eq_refl) as [-> ->]. by exists w'.
Defined.

Lemma blank_send_ignored_witness :
  on_frame Scenario.reliable Scenario.service Scenario.clock Scenario.no_int
    10%nat 1 None
    (Document (JObj [("type", JStr "send"); ("to", JInt 2); ("text", JNull)]))
    Scenario.start
  = (Return None, Scenario.start).
Proof.
  by apply (blank_send_ignored Scenario.reliable Scenario.service
              Scenario.clock Scenario.no_int 10%nat 1 None _ (JInt 2) 2).
Defined.

Lemma send_without_recipient_ends_loop_witness :
  receive_loop Scenario.reliable Scenario.service Scenario.clock
    Scenario.no_int 10%nat 1 None
    [Document (JObj [("type", JStr "send"); ("text", JStr "hello")]);
     Scenario.send_frame 2 "hello"]
    Scenario.start
  = (Raise KeyError, Scenario.start).
Proof.
  by apply (send_without_recipient_ends_loop Scenario.reliable
              Scenario.service Scenario.clock Scenario.no_int).
Defined.

(** ** The send path: notice and record *)

Section SendPath.

Context (transport : list wire_event → conn → payload → option exn).
Context (completion : nat → string → string → api_result).
Context (db_now : list Message → Z).
Context (int_of_str : string → option Z).

(** The [rewrite_failed] notice of a [send] turn. With [f1] and [f2] the
    [failed] flags of the two stages: when neither is set, the turn
    returns and no notice is on the wire; when one is set, the notice is
    the first write of the turn, to the originating connection, and if it
    goes through the turn goes on to the fanout; if that write fails, its
    exception leaves the turn, nothing is persisted and nothing is fanned
    out. Both ids are keys the storage can bind, so that the two lookups
    of [db.get] return. *)
Theorem degraded_notice websocket user_id peer_id fields to recipient_id
    recipient text w :
  assoc "type" fields = Some (JStr "send") →
  assoc "to" fields = Some to →
  py_int int_of_str to = Return recipient_id →
  or_empty_strip (assoc "text" fields) = Return text →
  text ≠ "" →
  in_int64 user_id → in_int64 recipient_id →
  users w !! recipient_id = Some recipient →
  let run :=
    on_frame transport completion db_now int_of_str websocket user_id peer_id
      (Document (JObj fields)) w in
  let sender_outgoing :=
    match users w !! user_id with
    | Some u => outgoing_instruction u
    | None => Some ""
    end in
  let incoming := PyStr.or_empty (instruction recipient) in
  ∃ outgoing c1 f1 wa final c2 f2 wb,
    _rewrite_text completion text sender_outgoing w
      = (Return (outgoing, c1, f1), wa) ∧
    _rewrite_text completion outgoing (Some incoming) wa
      = (Return (final, c2, f2), wb) ∧
    (f1 || f2 = false →
     ∃ w' evs,
       run = (Return peer_id, w') ∧ wire w' = wire w ++ evs ∧
       ∀ e, e ∈ evs → event_payload e ≠ rewrite_failed_notice) ∧
    (f1 || f2 = true →
     transport (wire w) websocket rewrite_failed_notice = None →
     ∃ w' evs,
       run = (Return peer_id, w') ∧
       wire w' = wire w ++ Delivered websocket rewrite_failed_notice :: evs ∧
       ∀ e, e ∈ evs → event_payload e ≠ rewrite_failed_notice) ∧
    (f1 || f2 = true →
     ∀ e, transport (wire w) websocket rewrite_failed_notice = Some e →
     run = (Raise e,
            mkWorld (active w) (users w) (messages w)
              (wire w ++ [WriteFailed websocket rewrite_failed_notice])
              (api_calls wb))).
Proof.
  intros Htype Hto Hint Htext Hne Hsid Hrid Hrec run sender_outgoing incoming.
  subst run. rewrite (on_frame_send _ _ _ _ _ _ _ _ _ _ _ _ Htype Hto Hint Htext).
  apply truthy_true in Hne as Htruthy. rewrite Htruthy.
  destruct (relay_run transport completion db_now int_of_str websocket user_id
              recipient_id text w recipient Hsid Hrid Hrec)
    as (o & c1 & f1 & n1 & fin & c2 & f2 & n2 & H1 & H2 & _ & Hrelay).
  fold sender_outgoing incoming in H1, H2, Hrelay.
  exists o, c1, f1, (set_api_calls n1 w), fin, c2, f2,
    (set_api_calls n2 (set_api_calls n1 w)).
  split; [done|]. split; [done|].
  assert (∀ evs_s evs_r w1 w2 w' i,
    fanned_out user_id
      (ChatMessage i user_id recipient_id o fin text o true)
      (elements (registered user_id w1)) evs_s w1 w2 →
    fanned_out recipient_id
      (ChatMessage i user_id recipient_id fin fin text o false)
      (elements (registered recipient_id w2)) evs_r w2 w' →
    wire w' = wire w1 ++ (evs_s ++ evs_r) ∧
    ∀ e, e ∈ evs_s ++ evs_r → event_payload e ≠ rewrite_failed_notice)
    as Hfan.
  { intros evs_s evs_r w1 w2 w' i Hfs Hfr. split.
    - by rewrite (fo_wire _ _ _ _ _ _ Hfr), (fo_wire _ _ _ _ _ _ Hfs),
        <- app_assoc.
    - intros e [He|He]%elem_of_app.
      + by rewrite (fo_payload _ _ _ _ _ _ Hfs e He).
      + by rewrite (fo_payload _ _ _ _ _ _ Hfr e He). }
  destruct (f1 || f2).
  - split; [done|].
    destruct (transport (wire w) websocket rewrite_failed_notice) as [e|].
    + split; [done|]. intros _ e' [= <-]. unfold bind. by rewrite Hrelay.
    + split; [|done]. intros _ _.
      destruct Hrelay as (evs_s & evs_r & w2 & w' & Hrelay & Hfs & Hfr).
      destruct (Hfan _ _ _ _ _ _ Hfs Hfr) as [Hwire Hpay].
      exists w', (evs_s ++ evs_r). unfold bind. rewrite Hrelay.
      split; [done|]. split; [|done].
      rewrite Hwire. simpl. by rewrite <- app_assoc.
  - split; [|by split].
    intros _.
    destruct Hrelay as (evs_s & evs_r & w2 & w' & Hrelay & Hfs & Hfr).
    destruct (Hfan _ _ _ _ _ _ Hfs Hfr) as [Hwire Hpay].
    exists w', (evs_s ++ evs_r). unfold bind. rewrite Hrelay.
    split; [done|]. split; [|done].
    rewrite Hwire. simpl. by rewrite app_nil_r.
Qed.

(** The record of a [send] turn that returns: one row is appended to
    [messages]; its id is new; its sender is the user of the connection
    and its recipient the [to] of the frame; and it keeps the instructions
    as they are in [users] at that moment, [""] standing for a missing
    one. *)
Theorem persisted_message_snapshot websocket user_id peer_id fields to
    rid recipient text w result w' :
  assoc "type" fields = Some (JStr "send") →
  assoc "to" fields = Some to →
  py_int int_of_str to = Return rid →
  or_empty_strip (assoc "text" fields) = Return text →
  text ≠ "" →
  users w !! rid = Some recipient →
  on_frame transport completion db_now int_of_str websocket user_id peer_id
    (Document (JObj fields)) w = (Return result, w') →
  ∃ msg,
    messages w' = messages w ++ [msg] ∧
    (msg_id msg ∉ msg_id <$> messages w) ∧
    sender_id msg = user_id ∧
    recipient_id msg = rid ∧
    instruction_used msg = Some (PyStr.or_empty (instruction recipient)) ∧
    outgoing_instruction_used msg =
      Some (match users w !! user_id with
            | Some u => PyStr.or_empty (outgoing_instruction u)
            | None => ""
            end) ∧
    timestamp msg = db_now (messages w).
Proof.
  intros Htype Hto Hint Htext Hne Hrec.
  rewrite (on_frame_send _ _ _ _ _ _ _ _ _ _ _ _ Htype Hto Hint Htext).
  apply truthy_true in Hne as Htruthy. rewrite Htruthy.
  destruct (relay_lookups transport completion db_now websocket user_id
              rid text w)
    as [Hover|[[_ Hnone]|(Hsid & Hrid & _)]];
    [unfold bind; by rewrite Hover | congruence |].
  destruct (relay_run transport completion db_now int_of_str websocket user_id
              rid text w recipient Hsid Hrid Hrec)
    as (o & c1 & f1 & n1 & fin & c2 & f2 & n2 & _ & _ & _ & Hrelay).
  destruct (if f1 || f2 then _ else None) as [e|].
  { unfold bind. by rewrite Hrelay. }
  destruct Hrelay as (evs_s & evs_r & w2 & w'' & Hrelay & Hfs & Hfr).
  unfold bind. rewrite Hrelay. intros [= <- <-].
  eexists. split.
  { by rewrite (fo_messages _ _ _ _ _ _ Hfr), (fo_messages _ _ _ _ _ _ Hfs). }
  simpl. split; [apply next_message_id_fresh|].
  repeat split. by destruct (users w !! user_id).
Qed.

End SendPath.

Lemma degraded_notice_witness :
  ∃ w',
    on_frame Scenario.reliable (λ _ _ _, ApiFailure RateLimitError)
      Scenario.clock Scenario.no_int 10%nat 1 None
      (Scenario.send_frame 2 "hey") Scenario.start = (Return None, w') ∧
    head (wire w') = Some (Delivered 10%nat rewrite_failed_notice).
Proof.
  destruct (degraded_notice Scenario.reliable (λ _ _ _, ApiFailure RateLimitError)
              Scenario.clock Scenario.no_int 10%nat 1 None
              [("type", JStr "send"); ("to", JInt 2); ("text", JStr "hey")]
              (JInt 2) 2 Scenario.bob "hey" Scenario.start
              eq_refl eq_refl eq_refl eq_refl)
    as (o & c1 & f1 & wa & fin & c2 & f2 & wb & H1 & _ & _ & Hok & _);
    [discriminate | unfold in_int64; lia | unfold in_int64; lia
    | reflexivity |].
  assert (f1 = true) as -> by (vm_compute in H1; congruence).
  destruct (Hok eq_refl eq_refl) as (w' & evs & Hrun & Hwire & _).
  exists w'. split; [exact Hrun|]. by rewrite Hwire.
Defined.

Lemma persisted_message_snapshot_witness :
  ∃ w' msg,
    on_frame Scenario.reliable Scenario.service Scenario.clock Scenario.no_int
      10%nat 1 None (Scenario.send_frame 2 "hey") Scenario.start
    = (Return None, w') ∧
    messages w' = [msg] ∧
    instruction_used msg = Some "pirate speak" ∧
    outgoing_instruction_used msg = Some "formal".
Proof.
  assert (∃ w',
    on_frame Scenario.reliable Scenario.service Scenario.clock Scenario.no_int
      10%nat 1 None (Scenario.send_frame 2 "hey") Scenario.start
    = (Return None, w')) as [w' Hrun]
    by (eexists; vm_compute; reflexivity).
  destruct (persisted_message_snapshot Scenario.reliable Scenario.service
              Scenario.clock Scenario.no_int 10%nat 1 None
              [("type", JStr "send"); ("to", JInt 2); ("text", JStr "hey")]
              (JInt 2) 2 Scenario.bob "hey" Scenario.start None w'
              eq_refl eq_refl eq_refl eq_refl)
    as (msg & Hmsgs & _ & _ & _ & Hin & Hout & _);
    [discriminate | reflexivity | exact Hrun |].
  exists w', msg. split; [exact Hrun|]. split; [exact Hmsgs|].
  split; [exact Hin | exact Hout].
Defined.

(** ** Rewrite stage: requests, flags, degenerate answers *)

Section RewriteMore.

Context (completion : nat → string → string → api_result).

(** One stage makes no request when the instruction is [None], empty or
    blank, and then returns the text as it is with both flags down; it
    makes exactly one request otherwise, also when the service raises or
    answers nothing usable. Nothing but the request counter changes. *)
Theorem rewrite_requests content instruction w :
  ∃ result,
    _rewrite_text completion content instruction w
    = (Return result,
       set_api_calls
         (if PyStr.truthy (PyStr.strip (PyStr.or_empty instruction))
          then S (api_calls w) else api_calls w) w) ∧
    (PyStr.strip (PyStr.or_empty instruction) = "" →
     result = (content, false, false)).
Proof.
  unfold _rewrite_text.
  destruct (PyStr.truthy (PyStr.strip (PyStr.or_empty instruction))) eqn:Hi;
    simpl.
  2: { exists (content, false, false). by rewrite set_api_calls_same. }
  apply truthy_true in Hi.
  unfold try_except, bind, create_completion.
  destruct (completion _ _ _) as [[s|]|e]; simpl.
  - destruct (PyStr.startswith _ _); simpl.
    + destruct (PyStr.after_colon _) as [r|]; simpl.
      * destruct (PyStr.truthy (PyStr.strip r)); simpl; by eexists.
      * by eexists.
    + destruct (PyStr.truthy (PyStr.strip s)); simpl; by eexists.
  - by eexists.
  - by eexists.
Qed.

(** The flags of a stage: [changed] and [failed] are never both set; a
    stage that did not change the text returns its input; a stage that
    changed it returns a text that is not empty; and a stage only fails
    with an instruction that is not blank. *)
Theorem rewrite_flags content instruction w text changed failed w' :
  _rewrite_text completion content instruction w
    = (Return (text, changed, failed), w') →
  (changed = false → text = content) ∧
  (changed = true → failed = false ∧ text ≠ "") ∧
  (failed = true →
   changed = false ∧ PyStr.strip (PyStr.or_empty instruction) ≠ "").
Proof.
  unfold _rewrite_text.
  destruct (PyStr.truthy (PyStr.strip (PyStr.or_empty instruction))) eqn:Hi;
    simpl.
  2: { intros [= <- <- <- <-]. by repeat split. }
  apply truthy_true in Hi.
  unfold try_except, bind, create_completion, ret, raise.
  destruct (completion _ _ _) as [[s|]|e]; simpl.
  - destruct (PyStr.startswith _ _); simpl.
    + destruct (PyStr.after_colon _) as [r|]; simpl.
      * destruct (PyStr.truthy (PyStr.strip r)) eqn:Hr; simpl;
          intros [= <- <- <- <-]; repeat split; try done.
        by apply truthy_true.
      * intros [= <- <- <- <-]. by repeat split.
    + destruct (PyStr.truthy (PyStr.strip s)) eqn:Hr; simpl;
        intros [= <- <- <- <-]; repeat split; try done.
      by apply truthy_true.
  - intros [= <- <- <- <-]. by repeat split.
  - intros [= <- <- <- <-]. by repeat split.
Qed.

(** Answers that carry no text, under an instruction that is not blank:
    a [None] content counts as a failure; an answer that is blank, or
    that is only the echoed label, counts as no change. In each case the
    input text comes back. *)
Theorem degenerate_answers content instruction w answer :
  let instr := PyStr.strip (PyStr.or_empty instruction) in
  instr ≠ "" →
  completion (api_calls w) system_prompt (user_prompt instr content)
    = Completion answer →
  let run := _rewrite_text completion content instruction w in
  let w' := set_api_calls (S (api_calls w)) w in
  (answer = None → run = (Return (content, false, true), w')) ∧
  (∀ s, answer = Some s → PyStr.strip s = "" →
        run = (Return (content, false, false), w')) ∧
  (∀ s rest, answer = Some s →
     PyStr.startswith (PyStr.lower (PyStr.strip s)) "rewritten message:" = true →
     PyStr.after_colon (PyStr.strip s) = Some rest →
     PyStr.strip rest = "" →
     run = (Return (content, false, false), w')).
Proof.
  intros instr Hinstr Hanswer run w'. subst run.
  unfold _rewrite_text. fold instr.
  apply truthy_true in Hinstr. rewrite Hinstr. simpl.
  unfold try_except, bind, create_completion. rewrite Hanswer.
  split; [by intros ->|]. split.
  - intros s -> Hs. simpl. by rewrite Hs.
  - intros s rest -> Hlabel Hrest Hblank. simpl.
    by rewrite Hlabel, Hrest, Hblank.
Qed.

End RewriteMore.

Lemma rewrite_flags_witness :
  PyStr.strip (PyStr.or_empty (Some "formal")) ≠ "".
Proof.
  apply (rewrite_flags (λ _ _ _, ApiFailure RateLimitError) "hey"
           (Some "formal") Scenario.start "hey" false true
           (set_api_calls 1 Scenario.start) eq_refl).
  reflexivity.
Defined.

Lemma degenerate_answers_witness :
  _rewrite_text (λ _ _ _, Completion (Some "Rewritten message:   ")) "hey"
    (Some "formal") Scenario.start
  = (Return ("hey", false, false), set_api_calls 1 Scenario.start).
Proof.
  refine (proj2 (proj2 (degenerate_answers
    (λ _ _ _, Completion (Some "Rewritten message:   ")) "hey"
    (Some "formal") Scenario.start (Some "Rewritten message:   ") _ eq_refl))
    "Rewritten message:   " "" eq_refl eq_refl eq_refl eq_refl).
  discriminate.
Defined.

(** ** Presence: pruning and the online window *)

Section PresenceMore.

Import Presence.

Lemma geb_ltb x y : geb x y = negb (ltb x y).
Proof. unfold geb, ltb. by rewrite negb_involutive. Qed.

(** [_prune_presence] keeps exactly the entries younger than the timeout,
    with their timestamps. *)
Theorem prune_keeps_exactly_fresh now (presence : gmap Z Q) user_id ts :
  _prune_presence now presence !! user_id = Some ts ↔
  presence !! user_id = Some ts ∧ (now - ts < PRESENCE_TIMEOUT_SEC)%Q.
Proof.
  rewrite prune_lookup, <- ltb_lt.
  destruct (presence !! user_id) as [ts'|]; [|by split; [|intros [? _]]].
  rewrite geb_ltb. destruct (ltb (now - ts') PRESENCE_TIMEOUT_SEC) eqn:Hlt;
    simpl; split.
  - intros [= <-]. by split.
  - by intros [[= <-] _].
  - done.
  - intros [[= <-] Hlt']. congruence.
Qed.

(** Pruning at a time changes the online status of no one at that time:
    the handlers that prune before they answer report what they would
    have reported without pruning. *)
Theorem prune_keeps_status now (presence : gmap Z Q) user_id :
  _is_online user_id now (_prune_presence now presence)
  = _is_online user_id now presence.
Proof.
  unfold _is_online. rewrite prune_lookup.
  destruct (presence !! user_id) as [ts|]; [|done].
  rewrite geb_ltb.
  destruct (ltb (now - ts) PRESENCE_TIMEOUT_SEC) eqn:Hlt; simpl.
  - destruct (truthy ts); [exact Hlt | done].
  - by destruct (truthy ts).
Qed.

(** After a ping at a time [now] other than zero, and until the next
    ping or pruning, the user is online at [t] exactly when
    [t - now] is below the timeout. *)
Theorem ping_online_window user_id now t (presence : gmap Z Q) :
  ¬ (now == 0)%Q →
  _is_online user_id t (presence_ping user_id now presence) = true ↔
  (t - now < PRESENCE_TIMEOUT_SEC)%Q.
Proof.
  intros Hnz. rewrite is_online_iff.
  assert (presence_ping user_id now presence !! user_id = Some now) as Hping.
  { apply prune_keeps_exactly_fresh. rewrite lookup_insert_eq.
    split; [done|]. unfold PRESENCE_TIMEOUT_SEC. lra. }
  rewrite Hping. split.
  - by intros (ts & [= <-] & _ & Hlt).
  - intros Hlt. by exists now.
Qed.

(** Without a new ping nobody comes back online: who is online at a time
    was online at every earlier time, the dict being the same. *)
Theorem online_earlier user_id now now' (presence : gmap Z Q) :
  (now <= now')%Q →
  _is_online user_id now' presence = true →
  _is_online user_id now presence = true.
Proof.
  intros Hle. rewrite !is_online_iff.
  intros (ts & Hts & Hnz & Hlt). exists ts. repeat split; try done.
  unfold PRESENCE_TIMEOUT_SEC in *. lra.
Qed.

(** A ping records the time of the ping for its user, whatever was there
    before, and prunes the entries of the others: an entry of another
    user is there afterwards exactly when it was there and is younger
    than the timeout. *)
Theorem ping_records_and_prunes user_id now (presence : gmap Z Q) :
  presence_ping user_id now presence !! user_id = Some now ∧
  ∀ k ts, k ≠ user_id →
    presence_ping user_id now presence !! k = Some ts ↔
    presence !! k = Some ts ∧ (now - ts < PRESENCE_TIMEOUT_SEC)%Q.
Proof.
  unfold presence_ping. split.
  - apply prune_keeps_exactly_fresh. rewrite lookup_insert_eq.
    split; [done|]. unfold PRESENCE_TIMEOUT_SEC. lra.
  - intros k ts Hk.
    by rewrite prune_keeps_exactly_fresh, lookup_insert_ne.
Qed.

End PresenceMore.

Lemma ping_online_window_witness :
  Presence._is_online 1 (1700000010 # 1)
    (Presence.presence_ping 1 (1700000000 # 1) ∅) = true.
Proof.
  apply (ping_online_window 1 (1700000000 # 1) (1700000010 # 1) ∅);
    [discriminate | reflexivity].
Defined.

Lemma online_earlier_witness :
  Presence._is_online 1 3 {[1 := 2%Q]} = true.
Proof.
  apply (online_earlier 1 3 10 {[1 := 2%Q]}); [discriminate | reflexivity].
Defined.

(** ** Accounts: [register] and the two instruction setters *)

Section Accounts.

Import Store.

Lemma rows_by_nickname_elem nick (table : gmap Z User) (r : row) :
  r ∈ rows_by_nickname nick table ↔
  table !! r.1 = Some r.2 ∧ nickname r.2 = nick.
Proof.
  unfold rows_by_nickname.
  rewrite list_elem_of_In, filter_In, String.eqb_eq.
  destruct r as [i u]. simpl.
  split; intros [Hin Hn]; (split; [|done]).
  - by apply elem_of_map_to_list, list_elem_of_In.
  - by apply list_elem_of_In, elem_of_map_to_list.
Qed.

Lemma rows_by_nickname_NoDup nick (table : gmap Z User) :
  NoDup (rows_by_nickname nick table).
Proof.
  unfold rows_by_nickname.
  rewrite (bool_filter_filter _ (λ r : row, nickname r.2 = nick)).
  - apply NoDup_filter, NoDup_map_to_list.
  - intros r. apply String.eqb_eq.
Qed.

(** Under the constraint a nickname selects no row or one. *)
Lemma rows_by_nickname_unique nick (table : gmap Z User) :
  unique_nicknames table →
  rows_by_nickname nick table = [] ∨
  ∃ r, rows_by_nickname nick table = [r].
Proof.
  intros Huniq.
  pose proof (rows_by_nickname_NoDup nick table) as Hnd.
  pose proof (rows_by_nickname_elem nick table) as Helem.
  destruct (rows_by_nickname nick table) as [|r [|r' l]];
    [by left|by right; eexists|].
  exfalso.
  destruct (proj1 (Helem r) ltac:(by left)) as [Hr Hn].
  destruct (proj1 (Helem r') ltac:(right; by left)) as [Hr' Hn'].
  assert (r.1 = r'.1) as Hkey by (eapply Huniq; [done|done|congruence]).
  assert (r = r') as ->.
  { destruct r as [i u], r' as [i' u']. simpl in *. subst i'. congruence. }
  apply NoDup_cons in Hnd as [Hnotin _]. apply Hnotin. by left.
Qed.

Lemma rows_by_nickname_found nick (table : gmap Z User) i u :
  unique_nicknames table →
  table !! i = Some u → nickname u = nick →
  rows_by_nickname nick table = [(i, u)].
Proof.
  intros Huniq Hi Hn.
  assert ((i, u) ∈ rows_by_nickname nick table) as Hin
    by (by apply rows_by_nickname_elem).
  destruct (rows_by_nickname_unique nick table Huniq) as [Hnil|[r Hr]].
  - rewrite Hnil in Hin. by apply elem_of_nil in Hin.
  - rewrite Hr in Hin. apply list_elem_of_singleton in Hin. by subst.
Qed.

Lemma next_user_id_fresh (table : gmap Z User) :
  table !! next_user_id table = None.
Proof.
  apply eq_None_not_Some. intros [u Hu].
  assert (next_user_id table ∈ (map_to_list table).*1) as Hin.
  { apply list_elem_of_fmap. exists (next_user_id table, u).
    split; [done|]. by apply elem_of_map_to_list. }
  unfold next_user_id in Hin.
  assert (∀ (l : list Z) i, i ∈ l → i ≤ foldr Z.max 0 l) as Hmax.
  { induction l as [|x l IH]; intros i Hi.
    - by apply elem_of_nil in Hi.
    - simpl. apply elem_of_cons in Hi as [->|Hi]; [lia|].
      specialize (IH i Hi). lia. }
  specialize (Hmax _ _ Hin). lia.
Qed.

Lemma unique_nicknames_insert_new (table : gmap Z User) i u :
  unique_nicknames table →
  table !! i = None →
  (∀ j v, table !! j = Some v → nickname v ≠ nickname u) →
  unique_nicknames (<[i := u]> table).
Proof.
  intros Huniq Hi Hnew j k v v'. rewrite !lookup_insert.
  destruct (decide (i = j)) as [<-|Hj], (decide (i = k)) as [<-|Hk];
    intros Hv Hv' Hn; simplify_eq; try done.
  - exfalso. by eapply Hnew.
  - exfalso. eapply Hnew; [done|]. by symmetry.
  - by eapply Huniq.
Qed.

(** What [register] does on a table that satisfies the constraint. *)
Lemma register_run nick (table : gmap Z User) :
  unique_nicknames table →
  (∃ i u, table !! i = Some u ∧ nickname u = nick ∧
          Api.register nick table = (Ok (i, u), table)) ∨
  ((∀ j v, table !! j = Some v → nickname v ≠ nick) ∧
   Api.register nick table
   = (Ok (next_user_id table, mkUser nick (Some "") (Some "")),
      <[next_user_id table := mkUser nick (Some "") (Some "")]> table)).
Proof.
  intros Huniq. unfold Api.register, get_user_by_nickname, create_user.
  pose proof (rows_by_nickname_elem nick table) as Helem.
  destruct (rows_by_nickname_unique nick table Huniq) as [Hnil|[[i u] Hr]].
  - right. rewrite Hnil in *. split; [|done].
    intros j v Hj Hn. apply (elem_of_nil (j, v)). by apply Helem.
  - left. rewrite Hr in *. exists i, u.
    destruct (proj1 (Helem (i, u)) ltac:(by left)) as [Hi Hn]. done.
Qed.


(** Registering a nickname again gives the same row and leaves the table
    as the first registration left it. *)
Theorem register_idempotent nick (table : gmap Z User) r table' :
  unique_nicknames table →
  Api.register nick table = (Ok r, table') →
  Api.register nick table' = (Ok r, table').
Proof.
  intros Huniq Hrun.
  assert (unique_nicknames table' ∧ table' !! r.1 = Some r.2 ∧
          nickname r.2 = nick) as (Huniq' & Hr & Hn).
  { destruct (register_run nick table Huniq)
      as [(i & u & Hi & Hn & Hrun')|[Hnew Hrun']];
      rewrite Hrun' in Hrun; injection Hrun as <- <-; simpl.
    - done.
    - split; [|by rewrite lookup_insert_eq].
      apply unique_nicknames_insert_new;
        [done | apply next_user_id_fresh | done]. }
  unfold Api.register, get_user_by_nickname.
  rewrite (rows_by_nickname_found nick table' r.1 r.2 Huniq' Hr Hn).
  by destruct r.
Qed.

Lemma str_or_empty_id s : str_or_empty s = s.
Proof. by destruct s. Qed.

(** [set_instruction]: for an id the storage can bind, on a user that
    exists the row afterwards carries the new incoming instruction and
    keeps its nickname and its outgoing instruction, and on a user that
    does not the answer is 404; for an id it cannot bind, [db.get] raises
    and the handler does not catch it. In every case no other row changes
    and no key is added. *)
Theorem set_instruction_effect user_id instr (table : gmap Z User) :
  ∃ r table',
    Api.set_instruction user_id instr table = (r, table') ∧
    (∀ k, k ≠ user_id → table' !! k = table !! k) ∧
    dom table' = dom table ∧
    (¬ in_int64 user_id →
     r = Fail (Api.Uncaught OverflowError) ∧ table' = table) ∧
    (in_int64 user_id → table !! user_id = None →
     r = Fail (Api.HTTPException 404 "User not found") ∧ table' = table) ∧
    (in_int64 user_id → ∀ user, table !! user_id = Some user →
       ∃ user',
         r = Ok (user_id, user') ∧ table' !! user_id = Some user' ∧
         instruction user' = Some instr ∧
         nickname user' = nickname user ∧
         outgoing_instruction user' = outgoing_instruction user).
Proof.
  unfold Api.set_instruction, update_instruction.
  destruct (decide (in_int64 user_id)) as [Hid|Hid].
  2: { rewrite (db_get_overflow _ _ Hid).
       eexists _, _. split; [reflexivity|]. by repeat split. }
  rewrite (db_get_in_range _ _ Hid).
  destruct (table !! user_id) as [user|] eqn:Hu.
  - eexists _, _. split; [reflexivity|].
    split; [by intros k Hk; rewrite lookup_insert_ne|].
    split.
    { rewrite dom_insert_L. apply elem_of_dom_2 in Hu.
      apply set_eq. intros k. rewrite elem_of_union, elem_of_singleton.
      split; [by intros [->|?]|auto]. }
    split; [done|]. split; [done|].
    intros _ user0 [= <-]. eexists. split; [reflexivity|].
    rewrite lookup_insert_eq, str_or_empty_id. done.
  - eexists _, _. split; [reflexivity|]. by repeat split.
Qed.

(** The two setters write different columns: in either order the table
    ends the same. *)
Theorem setters_commute user_id incoming outgoing (table : gmap Z User) :
  (Api.set_outgoing_instruction user_id outgoing
     (Api.set_instruction user_id incoming table).2).2
  = (Api.set_instruction user_id incoming
       (Api.set_outgoing_instruction user_id outgoing table).2).2.
Proof.
  unfold Api.set_instruction, Api.set_outgoing_instruction,
    update_instruction, update_outgoing_instruction.
  destruct (decide (in_int64 user_id)) as [Hid|Hid].
  2: { rewrite !(db_get_overflow _ _ Hid). simpl.
       by rewrite ?(db_get_overflow _ _ Hid). }
  rewrite !(db_get_in_range _ _ Hid).
  destruct (table !! user_id) as [user|] eqn:Hu; simpl.
  - rewrite ?(db_get_in_range _ _ Hid), !lookup_insert_eq. simpl.
    by rewrite !insert_insert_eq.
  - by rewrite ?(db_get_in_range _ _ Hid), Hu.
Qed.

End Accounts.

Lemma scenario_unique : unique_nicknames (users Scenario.start).
Proof.
  assert (∀ i u, users Scenario.start !! i = Some u →
                 (i = 1 ∧ u = Scenario.alice) ∨ (i = 2 ∧ u = Scenario.bob))
    as Hrows.
  { intros i u. simpl.
    intros [[<- <-]|[_ [<- <-]%lookup_singleton_Some]]%lookup_insert_Some;
      auto. }
  intros i j u v Hi Hj Hn.
  destruct (Hrows _ _ Hi) as [[-> ->]|[-> ->]],
    (Hrows _ _ Hj) as [[-> ->]|[-> ->]]; done.
Qed.


Lemma register_idempotent_witness :
  Api.register "bob" (users Scenario.start)
  = (Store.Ok (2, Scenario.bob), users Scenario.start).
Proof.
  apply (register_idempotent "bob" (users Scenario.start) (2, Scenario.bob)
           (users Scenario.start) scenario_unique).
  vm_compute. reflexivity.
Defined.

(** ** History and chat list *)

Section History.

Import Store.

#[local] Instance oldest_first_trans : Transitive oldest_first.
Proof. unfold oldest_first. intros a b c ? ?. lia. Qed.

#[local] Instance oldest_first_total : Total oldest_first.
Proof. unfold oldest_first. intros a b. lia. Qed.



End History.

Lemma elem_of_get_messages a b (messages : list Message) m :
  m ∈ Store.get_messages a b messages ↔
  m ∈ messages ∧ Store.between a b m = true.
Proof.
  unfold Store.get_messages. rewrite merge_sort_Permutation.
  by rewrite list_elem_of_In, filter_In, <- list_elem_of_In.
Qed.

Section SendAndRead.

Context (transport : list wire_event → conn → payload → option exn).
Context (completion : nat → string → string → api_result).
Context (db_now : list Message → Z).
Context (int_of_str : string → option Z).

(** The row of a [send] turn that returns, with what the turn knows of
    it. *)
Lemma send_turn_row websocket user_id peer_id fields to rid recipient text w
    result w' :
  assoc "type" fields = Some (JStr "send") →
  assoc "to" fields = Some to →
  py_int int_of_str to = Return rid →
  or_empty_strip (assoc "text" fields) = Return text →
  text ≠ "" →
  users w !! rid = Some recipient →
  on_frame transport completion db_now int_of_str websocket user_id peer_id
    (Document (JObj fields)) w = (Return result, w') →
  ∃ msg,
    messages w' = messages w ++ [msg] ∧
    sender_id msg = user_id ∧ recipient_id msg = rid ∧
    original_text msg = Some text ∧
    instruction_used msg = Some (PyStr.or_empty (instruction recipient)).
Proof.
  intros Htype Hto Hint Htext Hne Hrec.
  rewrite (on_frame_send _ _ _ _ _ _ _ _ _ _ _ _ Htype Hto Hint Htext).
  apply truthy_true in Hne as Htruthy. rewrite Htruthy.
  destruct (relay_lookups transport completion db_now websocket user_id
              rid text w)
    as [Hover|[[_ Hnone]|(Hsid & Hrid & _)]];
    [unfold bind; by rewrite Hover | congruence |].
  destruct (relay_run transport completion db_now int_of_str websocket user_id
              rid text w recipient Hsid Hrid Hrec)
    as (o & c1 & f1 & n1 & fin & c2 & f2 & n2 & _ & _ & _ & Hrelay).
  destruct (if f1 || f2 then _ else None) as [e|].
  { unfold bind. by rewrite Hrelay. }
  destruct Hrelay as (evs_s & evs_r & w2 & w'' & Hrelay & Hfs & Hfr).
  unfold bind. rewrite Hrelay. intros [= <- <-].
  eexists. split.
  { by rewrite (fo_messages _ _ _ _ _ _ Hfr), (fo_messages _ _ _ _ _ _ Hfs). }
  done.
Qed.

(** What a [send] turn persists is in the history of the two users,
    asked from either side, with the text as it was typed. *)
Theorem sent_message_in_history websocket user_id peer_id fields to rid
    recipient text w result w' :
  assoc "type" fields = Some (JStr "send") →
  assoc "to" fields = Some to →
  py_int int_of_str to = Return rid →
  or_empty_strip (assoc "text" fields) = Return text →
  text ≠ "" →
  users w !! rid = Some recipient →
  on_frame transport completion db_now int_of_str websocket user_id peer_id
    (Document (JObj fields)) w = (Return result, w') →
  ∃ msg,
    messages w' = messages w ++ [msg] ∧
    original_text msg = Some text ∧
    msg ∈ Store.get_messages user_id rid (messages w') ∧
    msg ∈ Store.get_messages rid user_id (messages w').
Proof.
  intros Htype Hto Hint Htext Hne Hrec Hrun.
  destruct (send_turn_row _ _ _ _ _ _ _ _ _ _ _
              Htype Hto Hint Htext Hne Hrec Hrun)
    as (msg & Hmsgs & Hs & Hr & Ho & _).
  exists msg. split; [done|]. split; [done|].
  rewrite !elem_of_get_messages, Hmsgs.
  unfold Store.between. rewrite Hs, Hr, !Z.eqb_refl. simpl.
  split; (split; [apply elem_of_app; right; by left|]); [done|].
  apply orb_true_r.
Qed.

(** An instruction set through [set_instruction] is the one the next
    [send] to that user records: the message keeps the instruction in
    force when it was sent. *)
Theorem instruction_update_applies_to_next_send websocket user_id peer_id
    fields to rid recipient text instr w result w' :
  assoc "type" fields = Some (JStr "send") →
  assoc "to" fields = Some to →
  py_int int_of_str to = Return rid →
  or_empty_strip (assoc "text" fields) = Return text →
  text ≠ "" →
  users w !! rid = Some recipient →
  on_frame transport completion db_now int_of_str websocket user_id peer_id
    (Document (JObj fields))
    (mkWorld (active w) (Api.set_instruction rid instr (users w)).2
       (messages w) (wire w) (api_calls w))
  = (Return result, w') →
  ∃ msg,
    messages w' = messages w ++ [msg] ∧
    recipient_id msg = rid ∧
    instruction_used msg = Some instr.
Proof.
  intros Htype Hto Hint Htext Hne Hrec Hrun.
  destruct (decide (in_int64 rid)) as [Hrid|Hrid].
  2: { rewrite (on_frame_send _ _ _ _ _ _ _ _ _ _ _ _ Htype Hto Hint Htext)
         in Hrun.
       apply truthy_true in Hne as Htruthy. rewrite Htruthy in Hrun.
       unfold bind in Hrun.
       by rewrite (relay_recipient_overflow _ _ _ _ _ _ _ _ Hrid) in Hrun. }
  unfold Api.set_instruction, Store.update_instruction in Hrun.
  rewrite (db_get_in_range _ _ Hrid), Hrec in Hrun. simpl in Hrun.
  eapply send_turn_row in Hrun as (msg & Hmsgs & _ & Hr & _ & Hi);
    [|done|done|done|done|done|simpl; apply lookup_insert_eq].
  exists msg. split; [done|]. split; [done|].
  rewrite Hi. simpl. by rewrite str_or_empty_id.
Qed.

End SendAndRead.

Lemma sent_message_in_history_witness :
  ∃ w' msg,
    on_frame Scenario.reliable Scenario.service Scenario.clock Scenario.no_int
      10%nat 1 None (Scenario.send_frame 2 "hey") Scenario.start
    = (Return None, w') ∧
    msg ∈ Store.get_messages 2 1 (messages w') ∧
    original_text msg = Some "hey".
Proof.
  assert (∃ w',
    on_frame Scenario.reliable Scenario.service Scenario.clock Scenario.no_int
      10%nat 1 None (Scenario.send_frame 2 "hey") Scenario.start
    = (Return None, w')) as [w' Hrun]
    by (eexists; vm_compute; reflexivity).
  destruct (sent_message_in_history Scenario.reliable Scenario.service
              Scenario.clock Scenario.no_int 10%nat 1 None
              [("type", JStr "send"); ("to", JInt 2); ("text", JStr "hey")]
              (JInt 2) 2 Scenario.bob "hey" Scenario.start None w'
              eq_refl eq_refl eq_refl eq_refl)
    as (msg & _ & Ho & _ & Hin); [discriminate | reflexivity | exact Hrun |].
  by exists w', msg.
Defined.

Lemma instruction_update_applies_to_next_send_witness :
  ∃ w' msg,
    messages w' = [msg] ∧ instruction_used msg = Some "shouting".
Proof.
  assert (∃ w',
    on_frame Scenario.reliable Scenario.service Scenario.clock Scenario.no_int
      10%nat 1 None (Scenario.send_frame 2 "hey")
      (mkWorld (active Scenario.start)
         (Api.set_instruction 2 "shouting" (users Scenario.start)).2
         (messages Scenario.start) (wire Scenario.start)
         (api_calls Scenario.start))
    = (Return None, w')) as [w' Hrun]
    by (eexists; vm_compute; reflexivity).
  destruct (instruction_update_applies_to_next_send Scenario.reliable
              Scenario.service Scenario.clock Scenario.no_int 10%nat 1 None
              [("type", JStr "send"); ("to", JInt 2); ("text", JStr "hey")]
              (JInt 2) 2 Scenario.bob "hey" "shouting" Scenario.start None w'
              eq_refl eq_refl eq_refl eq_refl)
    as (msg & Hmsgs & _ & Hi); [discriminate | reflexivity | exact Hrun |].
  by exists w', msg.
Defined.

(** ** The lists the clients poll *)

Section Lists.

Import Crud Api.

Lemma fmap_bool_filter {A B} (g : A → B) (h : A → bool) (P : B → Prop)
    `{∀ y, Decision (P y)} (l : list A) :
  (∀ x, h x = true ↔ P (g x)) →
  g <$> List.filter h l = filter P (g <$> l).
Proof.
  intros Hh. induction l as [|x l IH]; [done|]. cbn [List.filter].
  rewrite (fmap_cons g x l), filter_cons. destruct (h x) eqn:Hx.
  - rewrite decide_True by (by apply Hh). by rewrite fmap_cons, IH.
  - rewrite decide_False; [done|]. rewrite <- Hh. congruence.
Qed.

Lemma is_online_pruned now (presence : gmap Z Q) k :
  Presence._is_online k now (Presence._prune_presence now presence)
  = Presence._is_online k now presence.
Proof.
  unfold Presence._is_online. rewrite prune_lookup.
  destruct (presence !! k) as [ts|]; [|done].
  unfold Presence.geb, Presence.ltb.
  destruct (Qle_bool Presence.PRESENCE_TIMEOUT_SEC (now - ts)) eqn:Hold;
    simpl.
  - by destruct (Presence.truthy ts).
  - destruct (Presence.truthy ts); [|done]. simpl. by rewrite Hold.
Qed.

(** [users] lists every row of the table once, with the nickname of the
    row and the online status the user had when the request came, before
    its own pruning; [users_available] answers with the part of that list
    that is online, and leaves the same [presence]. *)
Theorem users_available_is_the_online_part now (presence : gmap Z Q)
    (table : gmap Z User) :
  (users_available now presence table).1
    = filter (λ o, out_is_online o = true) (users now presence table).1 ∧
  (users_available now presence table).2 = (users now presence table).2 ∧
  out_id <$> (users now presence table).1 = (map_to_list table).*1 ∧
  (∀ o, o ∈ (users now presence table).1 →
     out_is_online o = Presence._is_online (out_id o) now presence ∧
     ∃ u, table !! out_id o = Some u ∧ out_nickname o = nickname u).
Proof.
  pose proof (is_online_pruned now presence) as Hprune.
  unfold users_available, users, Store.get_users. simpl.
  split; [by apply fmap_bool_filter|]. split; [done|]. split.
  - rewrite <- list_fmap_compose. by apply list_fmap_ext.
  - intros o ([k u] & -> & Hin)%list_elem_of_fmap. simpl.
    split; [apply Hprune|].
    exists u. split; [|done]. by apply elem_of_map_to_list.
Qed.

(** The summaries, peer by peer. *)
Lemma summaries_lookup (table : gmap Z User) messages viewer peer :
  get_conversation_summaries table messages viewer !! peer =
    if decide (peer = viewer) then None
    else (λ user,
            summary_of viewer peer user (select_messages_desc viewer messages))
           <$> table !! peer.
Proof.
  unfold get_conversation_summaries.
  rewrite foldl_scan_lookup, map_lookup_imap, map_lookup_filter.
  destruct (table !! peer) as [user|]; simpl.
  2: { by destruct (decide (peer = viewer)). }
  destruct (decide (peer = viewer)) as [->|Hne].
  - by rewrite option_guard_False by (simpl; tauto).
  - rewrite option_guard_True by done. simpl. unfold summary_of.
    by destruct (List.find _ _).
Qed.

Lemma summaries_peer_id (table : gmap Z User) messages viewer peer s :
  get_conversation_summaries table messages viewer !! peer = Some s →
  peer_id s = peer ∧ peer ≠ viewer ∧ is_Some (table !! peer).
Proof.
  rewrite summaries_lookup.
  destruct (decide (peer = viewer)); [done|].
  destruct (table !! peer) as [user|]; [|done]. simpl. intros [= <-].
  split; [|by split; [|eexists]].
  unfold summary_of. by destruct (List.find _ _).
Qed.

#[local] Instance by_key_total : Total by_key.
Proof.
  intros a b. unfold by_key.
  destruct (sort_key a) as [[b1 z1] s1], (sort_key b) as [[b2 z2] s2]. simpl.
  destruct b1, b2; simpl; auto;
    (destruct (Z.eqb_spec z1 z2) as [->|Hne];
     [rewrite Z.eqb_refl; apply String.leb_total|]);
    (destruct (Z.eqb_spec z2 z1) as [->|_]; [done|]);
    rewrite !Z.ltb_lt; lia.
Qed.

#[local] Instance recent_first_trans : Transitive recent_first.
Proof.
  intros a b c. unfold recent_first.
  destruct (cs_last_message_timestamp a), (cs_last_message_timestamp b),
    (cs_last_message_timestamp c); try done. lia.
Qed.




Lemma find_first_sorted {A} (R : relation A) (f : A → bool) l :
  StronglySorted R l →
  ∀ y, y ∈ l → f y = true →
  ∃ x, List.find f l = Some x ∧ (x = y ∨ R x y).
Proof.
  induction 1 as [|x l Hs IH Hall]; intros y Hy Hfy.
  - by apply elem_of_nil in Hy.
  - simpl. destruct (f x) eqn:Hfx.
    + exists x. split; [done|].
      apply elem_of_cons in Hy as [->|Hy]; [by left|right].
      rewrite Forall_forall in Hall. by apply Hall.
    + apply elem_of_cons in Hy as [->|Hy]; [congruence|]. by apply IH.
Qed.

(** The summary of a peer shows the latest exchange: no message between
    the viewer and the peer, in either direction, has a timestamp after
    the one of the summary. *)
Theorem summary_is_latest (table : gmap Z User) (messages : list Message)
    viewer peer s m :
  get_conversation_summaries table messages viewer !! peer = Some s →
  m ∈ messages →
  (sender_id m = viewer ∧ recipient_id m = peer) ∨
  (sender_id m = peer ∧ recipient_id m = viewer) →
  ∃ t, last_message_timestamp s = Some t ∧ timestamp m ≤ t.
Proof.
  intros Hs Hm Hbetween.
  destruct (summaries_peer_id _ _ _ _ _ Hs) as (_ & Hne & _).
  rewrite summaries_lookup, decide_False in Hs by done.
  destruct (table !! peer) as [user|]; [|done]. injection Hs as <-.
  destruct (select_messages_desc_spec viewer messages) as [Hperm Hsorted].
  assert (m ∈ select_messages_desc viewer messages) as Hrow.
  { rewrite Hperm. apply list_elem_of_filter. split; [|done]. tauto. }
  assert (bool_decide (peer_of viewer m = peer) = true) as Hpeer.
  { apply bool_decide_eq_true. unfold peer_of.
    destruct (decide (sender_id m = viewer)) as [Heq|Hneq]; [|tauto].
    destruct Hbetween as [[_ ?]|[? _]]; [done|congruence]. }
  destruct (find_first_sorted newest_first
              (λ m, bool_decide (peer_of viewer m = peer))
              _ Hsorted m Hrow Hpeer) as (m0 & Hfind & Hle).
  unfold summary_of. rewrite Hfind. simpl.
  exists (timestamp m0). split; [done|].
  destruct Hle as [->|Hle]; [lia | exact Hle].
Qed.

End Lists.

Lemma summary_is_latest_witness :
  ∃ t,
    Crud.last_message_timestamp
      (Crud.mkSummary 2 "bob" (Some 2) (Some 2) (Some "Good day.") (Some 200))
    = Some t ∧ 100 ≤ t.
Proof.
  apply (summary_is_latest (users Scenario.start)
           [mkMessage 1 1 2 (Some "hi") (Some "Hello.") (Some "Ahoy!")
              (Some "pirate") (Some "formal") 100;
            mkMessage 2 2 1 (Some "yo") (Some "Yo!") (Some "Good day.")
              (Some "formal") (Some "") 200]
           1 2 _
           (mkMessage 1 1 2 (Some "hi") (Some "Hello.") (Some "Ahoy!")
              (Some "pirate") (Some "formal") 100)).
  - vm_compute. reflexivity.
  - by left.
  - by left.
Defined.

(** ** Rewrite stage: the echoed label *)

Section EchoedLabel.

Context (completion : nat → string → string → api_result).

Lemma lower_app s t : PyStr.lower (s ++ t)%string = (PyStr.lower s ++ PyStr.lower t)%string.
Proof. induction s as [|c s IH]; simpl; [done|]. by rewrite IH. Qed.

Lemma startswith_app p t : PyStr.startswith (p ++ t)%string p = true.
Proof.
  unfold PyStr.startswith. induction p as [|c p IH]; simpl.
  - by destruct t.
  - destruct (ascii_dec c c); [done|congruence].
Qed.

Lemma lower_char_not_colon c k :
  PyStr.lower_char c = k → k ≠ ":"%char → Ascii.eqb c ":" = false.
Proof.
  intros <- Hk. apply Ascii.eqb_neq. intros ->. by apply Hk.
Qed.

Lemma lower_char_is_colon c : PyStr.lower_char c = ":"%char → c = ":"%char.
Proof.
  destruct c as [[] [] [] [] [] [] [] []]; vm_compute; intros H;
    first [reflexivity | discriminate H].
Qed.

Lemma after_colon_label label body :
  PyStr.lower label = "rewritten message:" →
  PyStr.after_colon (label ++ body)%string = Some body.
Proof.
  intros H.
  do 18 (destruct label as [|? label]; [discriminate H|]).
  destruct label; [|discriminate H].
  simpl in H. injection H as H1 H2 H3 H4 H5 H6 H7 H8 H9 H10 H11 H12 H13 H14
    H15 H16 H17 H18.
  simpl.
  repeat match goal with
  | Hc : PyStr.lower_char ?c = ?k |- context [Ascii.eqb ?c ":"] =>
      first
        [ rewrite (lower_char_not_colon c k Hc) by discriminate
        | apply lower_char_is_colon in Hc; subst c; simpl ]
  end.
  done.
Qed.

(** An answer that opens with the label [Rewritten message:], in any
    letter case, is used without the label: the text of the stage is what
    follows the label, trimmed, when that is not empty. *)
Theorem echoed_label_removed content instruction w s label body :
  let instr := PyStr.strip (PyStr.or_empty instruction) in
  instr ≠ "" →
  completion (api_calls w) system_prompt (user_prompt instr content)
    = Completion (Some s) →
  PyStr.strip s = (label ++ body)%string →
  PyStr.lower label = "rewritten message:" →
  PyStr.strip body ≠ "" →
  _rewrite_text completion content instruction w
  = (Return (PyStr.strip body, true, false),
     set_api_calls (S (api_calls w)) w).
Proof.
  intros instr Hinstr Hanswer Hs Hlabel Hbody.
  unfold _rewrite_text. fold instr.
  apply truthy_true in Hinstr. rewrite Hinstr. simpl.
  unfold try_except, bind, create_completion. rewrite Hanswer. simpl.
  rewrite Hs, lower_app, Hlabel, startswith_app. simpl.
  rewrite (after_colon_label label body Hlabel). simpl.
  apply truthy_true in Hbody. by rewrite Hbody.
Qed.

End EchoedLabel.

Lemma echoed_label_removed_witness :
  _rewrite_text (λ _ _ _, Completion (Some " REWRITTEN Message: Ahoy! "))
    "hey" (Some "pirate") Scenario.start
  = (Return ("Ahoy!", true, false), set_api_calls 1 Scenario.start).
Proof.
  apply (echoed_label_removed
           (λ _ _ _, Completion (Some " REWRITTEN Message: Ahoy! "))
           "hey" (Some "pirate") Scenario.start
           " REWRITTEN Message: Ahoy! " "REWRITTEN Message:" " Ahoy!");
    first [discriminate | reflexivity].
Defined.
